(** * server/block_processor.py: prefetcher, block processor, flush and recovery

    A shallow embedding of [Prefetcher] and [BlockProcessor].  Python
    integers are [Z]; byte strings are lists of [byte]; a method that
    mutates [self] and may raise is a function from the object's state to
    an outcome (a value or the exception raised) paired with the state
    the object is left in, so that what a failed call has already done
    stays visible. *)

From Stdlib Require Import ZArith List Lia Bool.
From Stdlib Require Import Strings.String Strings.Byte.
From stdpp Require Import base gmap sets list strings countable.
From stdpp Require pretty.
Import ListNotations.

Local Open Scope Z_scope.

(** ** Python values, exceptions, outcomes *)

Abbreviation bytes := (list byte).

#[global] Instance byte_eq_dec : EqDecision byte := Byte.byte_eq_dec.

#[global] Instance byte_countable : Countable byte :=
  inj_countable Byte.to_N Byte.of_N Byte.of_to_N.

(** The values a chain-state record holds: what [ast.literal_eval]
    returns for the literals [flush_state] writes.  A [bool] is an [int]
    in Python ([True] is 1) and is a [PyInt] here; the wall time, a
    number of seconds, is kept integral. *)
Inductive pyval :=
| PyInt (z : Z)
| PyBytes (b : bytes)
| PyStr (s : string)
| PyNone.

#[global] Instance pyval_eq_dec : EqDecision pyval.
Proof. solve_decision. Defined.

(** The three messages a [ChainError] is raised with in this file,
    each with the values formatted into it. *)
Inductive chain_error :=
| GenesisMismatch (db_genesis coin_genesis : pyval)
    (* 'DB genesis hash {} does not match coin {}' *)
| FlushCountCorrupt
    (* 'DB corrupt: flush_count < utxo_flush_count' *)
| PrevHashMismatch (prev_hash tip : bytes).
    (* 'trying to build header with prev_hash {} on top of tip with hash {}' *)

Inductive exn :=
| ChainError (e : chain_error)
| DaemonError
| KeyError (key : string)
| NameError (name : string)
| AssertionError
| AttributeError
| TypeError
| ValueError
| StructError             (* struct.error *)
| OverflowError
| ZeroDivisionError
| IndexError
| OtherError (tag : string).

Inductive res (A : Type) :=
| Ok (a : A)
| Raise (e : exn).
Arguments Ok {A} a.
Arguments Raise {A} e.

Definition is_ok {A} (r : res A) : bool :=
  match r with Ok _ => true | Raise _ => false end.

(** The value of an outcome, [d] for an exception. *)
Definition value_or {A} (d : A) (r : res A) : A :=
  match r with Ok a => a | Raise _ => d end.

(** A method of an object with state [S]. *)
Definition M (S A : Type) : Type := S -> res A * S.

Definition ret {S A} (a : A) : M S A := fun s => (Ok a, s).
Definition raise {S A} (e : exn) : M S A := fun s => (Raise e, s).
Definition bind {S A B} (m : M S A) (k : A -> M S B) : M S B :=
  fun s => match m s with
           | (Ok a, s') => k a s'
           | (Raise e, s') => (Raise e, s')
           end.
Definition get {S} : M S S := fun s => (Ok s, s).
Definition gets {S A} (f : S -> A) : M S A := fun s => (Ok (f s), s).
Definition modify {S} (f : S -> S) : M S unit := fun s => (Ok tt, f s).
Definition lift {S A} (r : res A) : M S A := fun s => (r, s).

Declare Scope py_scope.
Delimit Scope py_scope with py.
Notation "x <- m ;; k" := (bind m (fun x => k))
  (at level 100, m at next level, right associativity) : py_scope.
Notation "m ;;; k" := (bind m (fun _ => k))
  (at level 100, right associativity) : py_scope.

(** [for x in xs: body x] *)
Fixpoint for_each {S A} (xs : list A) (body : A -> M S unit) : M S unit :=
  match xs with
  | [] => ret tt
  | x :: xs' => bind (body x) (fun _ => for_each xs' body)
  end.

(** [a // b] on Python ints: floor division, [ZeroDivisionError] on 0. *)
Definition floordiv (a b : Z) : res Z :=
  if b =? 0 then Raise ZeroDivisionError else Ok (a / b).

(** [sum(xs)] on a list of ints. *)
Definition sum (xs : list Z) : Z := fold_right Z.add 0 xs.

Definition len {A} (xs : list A) : Z := Z.of_nat (length xs).

(** ** formatted_time *)

(** [t // 86400, (t % 86400) // 3600, (t % 3600) // 60, t % 60] for
    [t] as [int(t)] has made it. *)
Definition time_parts (t : Z) : Z * Z * Z * Z :=
  (t / 86400, (t mod 86400) / 3600, (t mod 3600) / 60, t mod 60).

(** ['{:d}'.format(z)] and ['{:02d}'.format(z)] *)
Definition format_d (z : Z) : string := pretty.pretty z.

Definition format_02d (z : Z) : string :=
  if (0 <=? z) && (z <? 10) then String.append "0" (pretty.pretty z)
  else pretty.pretty z.

Definition formatted_time (t : Z) : string :=
  let '(d, h, m, s) := time_parts t in
  String.append (format_d d)
    (String.append "d "
       (String.append (format_02d h)
          (String.append "h "
             (String.append (format_02d m)
                (String.append "m " (String.append (format_02d s) "s")))))).

(** ** Prefetcher *)

Module Prefetcher.

Record t := mk {
  queue : list (list bytes * Z);
  queue_size : Z;
  target_cache_size : Z;
  fetched_height : Z;
  recent_sizes : list Z
}.

(** The daemon as seen by one call of [_prefetch]: what each of its
    three requests answers. *)
Record daemon := {
  height : res Z;
  block_hex_hashes : Z -> Z -> res (list bytes);
  raw_blocks : list bytes -> res (list bytes)
}.

Definition init (height : Z) : t :=
  {| queue := [];
     queue_size := 0;
     target_cache_size := 10 * 1024 * 1024;
     fetched_height := height;
     recent_sizes := [0] |}.

Definition _prefill_count (self : t) (room : Z) : res Z :=
  match floordiv (sum (recent_sizes self)) (len (recent_sizes self)) with
  | Raise e => Raise e
  | Ok ave_size =>
      match (if ave_size =? 0 then Ok 0 else floordiv room ave_size) with
      | Raise e => Raise e
      | Ok count => Ok (Z.max count 10)
      end
  end.

(** The arguments [(first, count)] of the [block_hex_hashes] request
    that [_prefetch] sends once the daemon has answered
    [daemon_height]. *)
Definition request (self : t) (daemon_height : Z) : res (Z * Z) :=
  let max_count := Z.min (daemon_height - fetched_height self) 4000 in
  match _prefill_count self (target_cache_size self) with
  | Raise e => Raise e
  | Ok n =>
      let count := Z.min max_count n in
      let first := fetched_height self + 1 in
      Ok (first, count)
  end.

(** [self.recent_sizes.extend(sizes)] and the trim to the last 50. *)
Definition keep_recent (recent sizes : list Z) : list Z :=
  let all := recent ++ sizes in
  let excess := len all - 50 in
  if 0 <? excess then skipn (Z.to_nat excess) all else all.

Definition _prefetch (d : daemon) : M t unit :=
  (daemon_height <- lift (height d) ;;
   self <- get ;;
   req <- lift (request self daemon_height) ;;
   let '(first, count) := req in
   hashes <- lift (block_hex_hashes d first count) ;;
   match hashes with
   | [] => ret tt
   | _ =>
       blocks <- lift (raw_blocks d hashes) ;;
       let sizes := map len blocks in
       let total_size := sum sizes in
       modify (fun self =>
         {| queue := queue self ++ [(blocks, total_size)];
            queue_size := queue_size self + total_size;
            target_cache_size := target_cache_size self;
            fetched_height := fetched_height self + len blocks;
            recent_sizes := keep_recent (recent_sizes self) sizes |})
   end)%py.

(** [get_blocks] once the queue holds an entry ([None]: it waits). *)
Definition get_blocks (self : t) : option (list bytes * t) :=
  match queue self with
  | [] => None
  | (blocks, total_size) :: rest =>
      Some (blocks,
            {| queue := rest;
               queue_size := queue_size self - total_size;
               target_cache_size := target_cache_size self;
               fetched_height := fetched_height self;
               recent_sizes := recent_sizes self |})
  end.

(** The states a prefetcher goes through: constructed, then any
    number of [_prefetch] rounds (however the daemon answers, and
    whether or not the round raises) and [get_blocks] calls. *)
Inductive reachable : t -> Prop :=
| reach_init h : reachable (init h)
| reach_prefetch d p : reachable p -> reachable (snd (_prefetch d p))
| reach_get p blocks p' :
    reachable p -> get_blocks p = Some (blocks, p') -> reachable p'.

(** The count of §4.5, in the spec's words:
    [min(daemon_height − fetched_height, 4000, max(10, B / avg))], the
    [max] term being 10 when the average is zero. *)
Definition B : Z := 10 * 1024 * 1024.

Definition avg_recent_size (self : t) : Z :=
  sum (recent_sizes self) / len (recent_sizes self).

Definition spec_count (self : t) (daemon_height : Z) : Z :=
  let m := if avg_recent_size self =? 0 then 10
           else Z.max 10 (B / avg_recent_size self) in
  Z.min (Z.min (daemon_height - fetched_height self) 4000) m.

(** The last [n] items of [l]. *)
Definition last_n {A} (n : nat) (l : list A) : list A :=
  skipn (length l - n) l.

(** A round of §4.5 from the daemon's answer to the request for
    hashes on, in the spec's words.  Unless blocks come back nothing
    changes; the blocks that do are enqueued as one batch with
    their byte total, [queue_size] and [fetched_height] move by
    their bytes and their number, and the window becomes the 50 most
    recent block sizes. *)
Definition spec_round (d : daemon) (self : t) (answer : res (list bytes))
    : res unit * t :=
  match answer with
  | Raise e => (Raise e, self)
  | Ok [] => (Ok tt, self)
  | Ok hashes =>
      match raw_blocks d hashes with
      | Raise e => (Raise e, self)
      | Ok blocks =>
          (Ok tt,
           {| queue := queue self ++ [(blocks, sum (map len blocks))];
              queue_size := queue_size self + sum (map len blocks);
              target_cache_size := target_cache_size self;
              fetched_height := fetched_height self + len blocks;
              recent_sizes :=
                last_n 50 (recent_sizes self ++ map len blocks) |})
      end
  end.

(** The body of the inner loop of [start]: [_prefetch], with a
    [DaemonError] caught and logged. *)
Definition try_prefetch (d : daemon) : M t unit :=
  fun self =>
    match _prefetch d self with
    | (Raise DaemonError, self') => (Ok tt, self')
    | r => r
    end.

(** The queue's byte count is that of its entries, and each entry is
    recorded with the total length of its blocks. *)
Definition queue_ok (p : t) : Prop :=
  queue_size p = sum (map snd (queue p))
  /\ Forall (fun e => snd e = sum (map len (fst e))) (queue p).

(** What every reachable prefetcher satisfies: the window of recent
    sizes is never empty and the byte budget stays 10 MiB. *)
Definition prefetcher_inv (p : t) : Prop :=
  recent_sizes p <> [] /\ target_cache_size p = B.

End Prefetcher.

(** ** struct and array *)

Definition byte_of_Z (z : Z) : byte :=
  match Byte.of_N (Z.to_N (z mod 256)) with
  | Some b => b
  | None => "000"%byte
  end.

Definition Z_of_byte (b : byte) : Z := Z.of_N (Byte.to_N b).

(** Big- and little-endian readings of a byte string. *)
Definition be_decode (bs : bytes) : Z :=
  fold_left (fun acc b => 256 * acc + Z_of_byte b) bs 0.

Definition le_decode (bs : bytes) : Z :=
  fold_right (fun b acc => Z_of_byte b + 256 * acc) 0 bs.

Fixpoint le_encode (width : nat) (z : Z) : bytes :=
  match width with
  | O => []
  | S w => byte_of_Z z :: le_encode w (z / 256)
  end.

Definition be_encode (width : nat) (z : Z) : bytes := rev (le_encode width z).

(** [struct.pack(fmt, z)] for an unsigned format of [width] bytes. *)
Definition pack (big_endian : bool) (width : nat) (z : Z) : res bytes :=
  if (0 <=? z) && (z <? 256 ^ Z.of_nat width)
  then Ok (if big_endian then be_encode width z else le_encode width z)
  else Raise StructError.

(** [struct.unpack(fmt, bs)]: the buffer must have the format's size. *)
Definition unpack (big_endian : bool) (width : nat) (bs : bytes) : res Z :=
  if Nat.eqb (length bs) width
  then Ok (if big_endian then be_decode bs else le_decode bs)
  else Raise StructError.

Definition pack_be16 := pack true 2.      (* '>H' *)
Definition unpack_be16 := unpack true 2.  (* '>H' *)
Definition unpack_le16 := unpack false 2. (* '<H' *)
Definition unpack_le32 := unpack false 4. (* '<I' *)
Definition unpack_le64 := unpack false 8. (* '<Q' *)

(** [bs[a:b]] for [0 <= a <= b]. *)
Definition slice (bs : bytes) (a b : nat) : bytes :=
  firstn (b - a) (skipn a bs).

(** [bs[-2:]] *)
Definition last2 (bs : bytes) : bytes := skipn (length bs - 2) bs.

(** [range(0, stop, step)] for a positive [step]. *)
Definition range_step (stop step : nat) : list nat :=
  map (Nat.mul step) (seq 0 ((stop + step - 1) / step)).

(** [array.array('I')]: items of four bytes, in the machine's
    (little-endian) byte order. *)
Definition array_I_max : Z := 4294967295.

Definition array_append (a : list Z) (x : Z) : res (list Z) :=
  if (0 <=? x) && (x <=? array_I_max) then Ok (a ++ [x])
  else Raise OverflowError.

Definition array_tobytes (a : list Z) : bytes :=
  concat (map (le_encode 4) a).

Definition array_frombytes (bs : bytes) : res (list Z) :=
  if Nat.eqb (length bs mod 4) 0
  then Ok (map (fun n => le_decode (slice bs n (n + 4)))
               (range_step (length bs) 4))
  else Raise ValueError.

(** The byte string of an ASCII literal, [b'...']. *)
Definition lit (s : string) : bytes := list_byte_of_string s.

(** ** The key-value store (plyvel.DB)

    An ordered map from byte-string keys to byte-string values, kept as
    an association list in ascending key order. *)

Module KV.

Definition t := list (bytes * bytes).

Fixpoint compare (x y : bytes) : comparison :=
  match x, y with
  | [], [] => Eq
  | [], _ :: _ => Lt
  | _ :: _, [] => Gt
  | a :: x', c :: y' =>
      match N.compare (Byte.to_N a) (Byte.to_N c) with
      | Eq => compare x' y'
      | o => o
      end
  end.

Fixpoint starts_with (prefix key : bytes) : bool :=
  match prefix, key with
  | [], _ => true
  | _ :: _, [] => false
  | a :: p', c :: k' => bool_decide (a = c) && starts_with p' k'
  end.

Fixpoint get (key : bytes) (db : t) : option bytes :=
  match db with
  | [] => None
  | (k, v) :: rest => if bool_decide (k = key) then Some v else get key rest
  end.

Fixpoint put (key value : bytes) (db : t) : t :=
  match db with
  | [] => [(key, value)]
  | (k, v) :: rest =>
      match compare key k with
      | Lt => (key, value) :: db
      | Eq => (key, value) :: rest
      | Gt => (k, v) :: put key value rest
      end
  end.

Definition delete (key : bytes) (db : t) : t :=
  List.filter (fun kv => negb (bool_decide (fst kv = key))) db.

(** [db.iterator(prefix=prefix)]: the entries whose key starts with
    [prefix], in key order. *)
Definition iterator (prefix : bytes) (db : t) : list (bytes * bytes) :=
  List.filter (fun kv => starts_with prefix (fst kv)) db.

Definition keys (db : t) : list bytes := map fst db.

(** A write batch: the operations recorded so far. *)
Inductive op :=
| Put (key value : bytes)
| Delete (key : bytes).

Definition batch := list op.

Definition apply (o : op) (db : t) : t :=
  match o with
  | Put k v => put k v db
  | Delete k => delete k db
  end.

(** Committing a batch applies its operations in the order recorded. *)
Definition commit (ops : batch) (db : t) : t :=
  fold_left (fun d o => apply o d) ops db.

End KV.

(** ** Transactions

    Modelled from the spec: lib/tx.py is not part of the sources; §3
    gives a transaction ordered inputs, each naming a previous output by
    [(prev_tx_hash, prev_out_index)], ordered outputs, each an
    [(amount, script)] pair, and a coinbase flag. *)

Record TxInput := { prevout : bytes * Z }.
Record TxOutput := { value : Z; pk_script : bytes }.
Record Tx := {
  inputs : list TxInput;
  outputs : list TxOutput;
  is_coinbase : bool
}.

(** An address identifier as the history map keys it: a hash168, or
    [None] (the entry [flush_history] drops). *)
Abbreviation aid := (option bytes).

(** ** The flat-file cache (server/cache.py, FSCache)

    Modelled from the spec: server/cache.py is not part of the sources.
    §4.1: two growable arrays, of block headers and of transaction
    hashes; [process_block] parses the block through the coin profile
    and appends the header and each tx hash; [flush] returns
    [new_tx_count − previous_tx_count]; [get_tx_hash] reads record TXN
    of the tx hashes and finds the block height in a cumulative
    tx-count-per-block table. *)

Module FSCache.

Record t := mk {
  headers : list bytes;
  tx_hashes : list bytes;
  tx_counts : list Z;        (* cumulative, one entry per block *)
  height : Z;                (* as of the last flush *)
  tx_count : Z               (* as of the last flush *)
}.

(** [FSCache(coin, height, tx_count)] over the files found on disk,
    cut back to the lengths [(height, tx_count)] imply (§4.7, step 5). *)
Definition open (disk_headers disk_tx_hashes : list bytes)
    (disk_tx_counts : list Z) (height tx_count : Z) : t :=
  {| headers := firstn (Z.to_nat (height + 1)) disk_headers;
     tx_hashes := firstn (Z.to_nat tx_count) disk_tx_hashes;
     tx_counts := firstn (Z.to_nat (height + 1)) disk_tx_counts;
     height := height;
     tx_count := tx_count |}.

Definition process_block
    (read_block : bytes -> res (bytes * list bytes * list Tx))
    (block : bytes) : M t (bytes * list bytes * list Tx) :=
  (triple <- lift (read_block block) ;;
   let '(header, hashes, txs) := triple in
   modify (fun self =>
     {| headers := headers self ++ [header];
        tx_hashes := tx_hashes self ++ hashes;
        tx_counts := tx_counts self
                       ++ [last (tx_counts self) 0 + len txs];
        height := height self;
        tx_count := tx_count self |}) ;;;
   ret triple)%py.

Definition flush (new_height new_tx_count : Z) : M t Z :=
  fun self =>
    (Ok (new_tx_count - tx_count self),
     {| headers := headers self;
        tx_hashes := tx_hashes self;
        tx_counts := tx_counts self;
        height := new_height;
        tx_count := new_tx_count |}).

Definition get_tx_hash (self : t) (tx_num : Z) : res (bytes * Z) :=
  if tx_num <? 0 then Raise IndexError
  else match nth_error (tx_hashes self) (Z.to_nat tx_num) with
       | None => Raise IndexError
       | Some h =>
           Ok (h, len (List.filter (fun c => c <=? tx_num) (tx_counts self)))
       end.

End FSCache.

(** ** Collaborators

    What the block processor is given and this file does not define:
    the environment's cache budgets, the coin profile, the UTXO cache of
    server/cache.py (its state is opaque; its methods read the database
    and the flat-file cache of the processor that owns it and change
    only their own state), Python's [repr] and [ast.literal_eval] on the
    chain-state record (a literal that is not a mapping counts as a
    failure of [literal_eval]), the wall clock and the daemon's cached
    height.  The clock and the daemon are read by position: [clock n]
    is what the [n]-th call of [time.time()] returns and
    [cached_height n] what [daemon.cached_height()] returns once [n]
    readings of the clock have been made. *)

Class World := {
  env_utxo_MB : Z;
  env_hist_MB : Z;
  GENESIS_HASH : pyval;
  TX_COUNT : Z;
  TX_COUNT_HEIGHT : Z;
  TX_PER_BLOCK : Z;
  read_block : bytes -> res (bytes * list bytes * list Tx);
  header_hashes : bytes -> res (bytes * bytes);
  UTXOCache : Type;
  utxo_init : UTXOCache;
  utxo_add_many : KV.t -> FSCache.t -> bytes -> Z -> list TxOutput ->
                  M UTXOCache (gset aid);
  utxo_spend : KV.t -> FSCache.t -> bytes * Z -> M UTXOCache aid;
  utxo_flush : KV.t -> FSCache.t -> KV.batch -> M UTXOCache KV.batch;
  utxo_cache_len : UTXOCache -> Z;
  utxo_db_cache_len : UTXOCache -> Z;
  py_repr : gmap string pyval -> bytes;
  literal_eval : bytes -> res (gmap string pyval);
  clock : nat -> Z;
  cached_height : nat -> option Z
}.

(** ** BlockProcessor *)

Module BlockProcessor.
Section WithWorld.
Context {W : World}.

(** The fields of [self].  [db] is the database the processor has
    opened; [ticks] counts the clock readings made so far. *)
Record t := mk {
  utxo_MB : Z;
  hist_MB : Z;
  next_cache_check : Z;
  last_flush : Z;
  db_height : Z;
  db_tx_count : Z;
  flush_count : Z;
  utxo_flush_count : Z;
  wall_time : Z;
  tip : bytes;
  db : KV.t;
  tx_count : Z;
  height : Z;
  history : gmap aid (list Z);
  history_size : Z;
  utxo_cache : UTXOCache;
  fs_cache : FSCache.t;
  ticks : nat
}.

Definition set_next_cache_check (v : Z) (s : t) : t :=
  mk (utxo_MB s) (hist_MB s) v (last_flush s) (db_height s)
    (db_tx_count s) (flush_count s) (utxo_flush_count s) (wall_time s)
    (tip s) (db s) (tx_count s) (height s) (history s) (history_size
    s) (utxo_cache s) (fs_cache s) (ticks s).
Definition set_last_flush (v : Z) (s : t) : t :=
  mk (utxo_MB s) (hist_MB s) (next_cache_check s) v (db_height s)
    (db_tx_count s) (flush_count s) (utxo_flush_count s) (wall_time s)
    (tip s) (db s) (tx_count s) (height s) (history s) (history_size
    s) (utxo_cache s) (fs_cache s) (ticks s).
Definition set_db_height (v : Z) (s : t) : t :=
  mk (utxo_MB s) (hist_MB s) (next_cache_check s) (last_flush s) v
    (db_tx_count s) (flush_count s) (utxo_flush_count s) (wall_time s)
    (tip s) (db s) (tx_count s) (height s) (history s) (history_size
    s) (utxo_cache s) (fs_cache s) (ticks s).
Definition set_db_tx_count (v : Z) (s : t) : t :=
  mk (utxo_MB s) (hist_MB s) (next_cache_check s) (last_flush s)
    (db_height s) v (flush_count s) (utxo_flush_count s) (wall_time s)
    (tip s) (db s) (tx_count s) (height s) (history s) (history_size
    s) (utxo_cache s) (fs_cache s) (ticks s).
Definition set_flush_count (v : Z) (s : t) : t :=
  mk (utxo_MB s) (hist_MB s) (next_cache_check s) (last_flush s)
    (db_height s) (db_tx_count s) v (utxo_flush_count s) (wall_time s)
    (tip s) (db s) (tx_count s) (height s) (history s) (history_size
    s) (utxo_cache s) (fs_cache s) (ticks s).
Definition set_utxo_flush_count (v : Z) (s : t) : t :=
  mk (utxo_MB s) (hist_MB s) (next_cache_check s) (last_flush s)
    (db_height s) (db_tx_count s) (flush_count s) v (wall_time s) (tip
    s) (db s) (tx_count s) (height s) (history s) (history_size s)
    (utxo_cache s) (fs_cache s) (ticks s).
Definition set_wall_time (v : Z) (s : t) : t :=
  mk (utxo_MB s) (hist_MB s) (next_cache_check s) (last_flush s)
    (db_height s) (db_tx_count s) (flush_count s) (utxo_flush_count s)
    v (tip s) (db s) (tx_count s) (height s) (history s) (history_size
    s) (utxo_cache s) (fs_cache s) (ticks s).
Definition set_tip (v : bytes) (s : t) : t :=
  mk (utxo_MB s) (hist_MB s) (next_cache_check s) (last_flush s)
    (db_height s) (db_tx_count s) (flush_count s) (utxo_flush_count s)
    (wall_time s) v (db s) (tx_count s) (height s) (history s)
    (history_size s) (utxo_cache s) (fs_cache s) (ticks s).
Definition set_db (v : KV.t) (s : t) : t :=
  mk (utxo_MB s) (hist_MB s) (next_cache_check s) (last_flush s)
    (db_height s) (db_tx_count s) (flush_count s) (utxo_flush_count s)
    (wall_time s) (tip s) v (tx_count s) (height s) (history s)
    (history_size s) (utxo_cache s) (fs_cache s) (ticks s).
Definition set_tx_count (v : Z) (s : t) : t :=
  mk (utxo_MB s) (hist_MB s) (next_cache_check s) (last_flush s)
    (db_height s) (db_tx_count s) (flush_count s) (utxo_flush_count s)
    (wall_time s) (tip s) (db s) v (height s) (history s)
    (history_size s) (utxo_cache s) (fs_cache s) (ticks s).
Definition set_height (v : Z) (s : t) : t :=
  mk (utxo_MB s) (hist_MB s) (next_cache_check s) (last_flush s)
    (db_height s) (db_tx_count s) (flush_count s) (utxo_flush_count s)
    (wall_time s) (tip s) (db s) (tx_count s) v (history s)
    (history_size s) (utxo_cache s) (fs_cache s) (ticks s).
Definition set_history (v : gmap aid (list Z)) (s : t) : t :=
  mk (utxo_MB s) (hist_MB s) (next_cache_check s) (last_flush s)
    (db_height s) (db_tx_count s) (flush_count s) (utxo_flush_count s)
    (wall_time s) (tip s) (db s) (tx_count s) (height s) v
    (history_size s) (utxo_cache s) (fs_cache s) (ticks s).
Definition set_history_size (v : Z) (s : t) : t :=
  mk (utxo_MB s) (hist_MB s) (next_cache_check s) (last_flush s)
    (db_height s) (db_tx_count s) (flush_count s) (utxo_flush_count s)
    (wall_time s) (tip s) (db s) (tx_count s) (height s) (history s) v
    (utxo_cache s) (fs_cache s) (ticks s).
Definition set_utxo_cache (v : UTXOCache) (s : t) : t :=
  mk (utxo_MB s) (hist_MB s) (next_cache_check s) (last_flush s)
    (db_height s) (db_tx_count s) (flush_count s) (utxo_flush_count s)
    (wall_time s) (tip s) (db s) (tx_count s) (height s) (history s)
    (history_size s) v (fs_cache s) (ticks s).
Definition set_fs_cache (v : FSCache.t) (s : t) : t :=
  mk (utxo_MB s) (hist_MB s) (next_cache_check s) (last_flush s)
    (db_height s) (db_tx_count s) (flush_count s) (utxo_flush_count s)
    (wall_time s) (tip s) (db s) (tx_count s) (height s) (history s)
    (history_size s) (utxo_cache s) v (ticks s).
Definition set_ticks (v : nat) (s : t) : t :=
  mk (utxo_MB s) (hist_MB s) (next_cache_check s) (last_flush s)
    (db_height s) (db_tx_count s) (flush_count s) (utxo_flush_count s)
    (wall_time s) (tip s) (db s) (tx_count s) (height s) (history s)
    (history_size s) (utxo_cache s) (fs_cache s) v.

(** [time.time()] *)
Definition time_time : M t Z :=
  fun s => (Ok (clock (ticks s)), set_ticks (S (ticks s)) s).

(** A method of [self.utxo_cache], which sees the processor's
    database and flat-file cache. *)
Definition on_utxo_cache {A}
    (f : KV.t -> FSCache.t -> M UTXOCache A) : M t A :=
  fun s => let (r, c) := f (db s) (fs_cache s) (utxo_cache s) in
           (r, set_utxo_cache c s).

(** A method of [self.fs_cache]. *)
Definition on_fs_cache {A} (f : M FSCache.t A) : M t A :=
  fun s => let (r, c) := f (fs_cache s) in (r, set_fs_cache c s).

(** [with self.db.write_batch(transaction=True) as batch: body]: the
    recorded operations are written when [body] returns and dropped
    when it raises. *)
Definition write_batch (body : KV.batch -> M t KV.batch) : M t unit :=
  fun s => match body [] s with
           | (Ok ops, s') => (Ok tt, set_db (KV.commit ops (db s')) s')
           | (Raise e, s') => (Raise e, s')
           end.

(** *** The chain-state record *)

Definition state_dict (s : t) : gmap string pyval :=
  list_to_map
    [("genesis"%string, GENESIS_HASH);
     ("height"%string, PyInt (db_height s));
     ("tx_count"%string, PyInt (db_tx_count s));
     ("tip"%string, PyBytes (tip s));
     ("flush_count"%string, PyInt (flush_count s));
     ("utxo_flush_count"%string, PyInt (utxo_flush_count s));
     ("wall_time"%string, PyInt (wall_time s))].

(** [state[key]] *)
Definition getitem (state : gmap string pyval) (key : string) : res pyval :=
  match state !! key with
  | Some v => Ok v
  | None => Raise (KeyError key)
  end.

(** The fields of [self] are typed here; a record value of another
    type is refused when it is adopted (Python would adopt it and fail
    at its first use). *)
Definition as_int (v : pyval) : res Z :=
  match v with PyInt z => Ok z | _ => Raise TypeError end.

Definition as_bytes (v : pyval) : res bytes :=
  match v with PyBytes x => Ok x | _ => Raise TypeError end.

Definition adopt_int (state : gmap string pyval) (key : string)
    (set : Z -> t -> t) : M t unit :=
  (v <- lift (getitem state key) ;;
   z <- lift (as_int v) ;;
   modify (set z))%py.

Definition adopt_bytes (state : gmap string pyval) (key : string)
    (set : bytes -> t -> t) : M t unit :=
  (v <- lift (getitem state key) ;;
   x <- lift (as_bytes v) ;;
   modify (set x))%py.

(** The body of [flush_state] up to the [put]: returns
    [repr(state).encode()]. *)
Definition flush_state_record : M t bytes :=
  (now <- time_time ;;
   modify (fun s => set_wall_time (wall_time s + (now - last_flush s)) s) ;;;
   modify (set_last_flush now) ;;;
   gets (fun s => py_repr (state_dict s)))%py.

(** [flush_state(batch)] on a write batch. *)
Definition flush_state (batch : KV.batch) : M t KV.batch :=
  (state <- flush_state_record ;;
   ret (batch ++ [KV.Put (lit "state") state]))%py.

(** [flush_state(db)] on the database itself. *)
Definition flush_state_db : M t unit :=
  (state <- flush_state_record ;;
   modify (fun s => set_db (KV.put (lit "state") state (db s)) s))%py.

Definition read_state : M t unit :=
  (s <- get ;;
   raw <- lift (match KV.get (lit "state") (db s) with
                | Some v => Ok v
                | None => Raise AttributeError   (* None.decode() *)
                end) ;;
   state <- lift (literal_eval raw) ;;
   genesis <- lift (getitem state "genesis") ;;
   if bool_decide (genesis <> GENESIS_HASH) then
     db_genesis <- lift (getitem state "genesis_hash") ;;
     raise (ChainError (GenesisMismatch db_genesis GENESIS_HASH))
   else
     adopt_int state "height" set_db_height ;;;
     adopt_int state "tx_count" set_db_tx_count ;;;
     adopt_bytes state "tip" set_tip ;;;
     adopt_int state "flush_count" set_flush_count ;;;
     adopt_int state "utxo_flush_count" set_utxo_flush_count ;;;
     adopt_int state "wall_time" set_wall_time)%py.

(** *** Recovery *)

(** The loop of [delete_excess_history] over the history entries:
    the keys whose trailing flush id exceeds [utxo_flush_count]. *)
Fixpoint excess_keys (utxo_flush_count : Z)
    (entries : list (bytes * bytes)) : res (list bytes) :=
  match entries with
  | [] => Ok []
  | (key, hist) :: rest =>
      match unpack_be16 (last2 key) with
      | Raise e => Raise e
      | Ok flush_id =>
          match excess_keys utxo_flush_count rest with
          | Raise e => Raise e
          | Ok keys =>
              Ok (if flush_id >? utxo_flush_count then key :: keys else keys)
          end
      end
  end.

Definition delete_excess_history : M t unit :=
  (s <- get ;;
   let utxo_flush_count0 := utxo_flush_count s in
   let diff := flush_count s - utxo_flush_count0 in
   if diff =? 0 then ret tt
   else if diff <? 0 then raise (ChainError FlushCountCorrupt)
   else
     keys <- lift (excess_keys (utxo_flush_count s)
                               (KV.iterator (lit "H") (db s))) ;;
     write_batch (fun batch =>
       for_each keys (fun key =>
         modify (fun s => set_db (KV.delete key (db s)) s)) ;;;
       modify (fun s => set_utxo_flush_count (flush_count s) s) ;;;
       flush_state batch))%py.

(** [open_db]: [disk] is the database found under the coin's name,
    if there is one. *)
Definition open_db (disk : option KV.t) : M t unit :=
  match disk with
  | None => (modify (set_db []) ;;; flush_state_db)%py
  | Some d =>
      (modify (set_db d) ;;; read_state ;;; delete_excess_history)%py
  end.

(** [__init__].  The fields assigned after [open_db] hold their
    final values from the start, except those computed from what
    [open_db] read. *)
Definition init (disk : option KV.t)
    (disk_headers disk_tx_hashes : list bytes) (disk_tx_counts : list Z)
    : res unit * t :=
  let s0 :=
    mk env_utxo_MB env_hist_MB 0 (clock 0) (-1) 0 0 0 0
       (repeat "000"%byte 32) [] 0 (-1) ∅ 0 utxo_init
       (FSCache.open disk_headers disk_tx_hashes disk_tx_counts (-1) 0)
       1%nat in
  (open_db disk ;;;
   modify (fun s => set_tx_count (db_tx_count s) s) ;;;
   modify (fun s => set_height (db_height s) s) ;;;
   modify (fun s =>
     set_fs_cache (FSCache.open disk_headers disk_tx_hashes disk_tx_counts
                                (height s) (tx_count s)) s))%py s0.

(** *** Flushing *)

Fixpoint history_puts (flush_id : bytes) (items : list (aid * list Z))
    : res KV.batch :=
  match items with
  | [] => Ok []
  | (hash168, hist) :: rest =>
      match hash168 with
      | None => Raise TypeError     (* b'H' + None *)
      | Some h =>
          match history_puts flush_id rest with
          | Raise e => Raise e
          | Ok ops =>
              Ok (KV.Put (lit "H" ++ h ++ flush_id) (array_tobytes hist)
                    :: ops)
          end
      end
  end.

(** The items of [self.history] are gone through in the order of
    [map_to_list]; they are put under distinct keys. *)
Definition flush_history (batch : KV.batch) : M t KV.batch :=
  (modify (fun s => set_history (delete None (history s)) s) ;;;
   modify (fun s => set_flush_count (flush_count s + 1) s) ;;;
   s <- get ;;
   flush_id <- lift (pack_be16 (flush_count s)) ;;
   puts <- lift (history_puts flush_id (map_to_list (history s))) ;;
   modify (set_history ∅) ;;;
   modify (set_history_size 0) ;;;
   ret (batch ++ puts))%py.

Definition flush_utxos (batch : KV.batch) : M t KV.batch :=
  (batch' <- on_utxo_cache (fun d f => utxo_flush d f batch) ;;
   modify (fun s => set_utxo_flush_count (flush_count s) s) ;;;
   modify (fun s => set_db_tx_count (tx_count s) s) ;;;
   modify (fun s => set_db_height (height s) s) ;;;
   ret batch')%py.

(** [n / d] for [d > 0], rounded to the nearest integer, ties to
    even. *)
Definition div_nearest_even (n d : Z) : Z :=
  let q := n / d in
  let r := n mod d in
  if 2 * r <? d then q
  else if d <? 2 * r then q + 1
  else if Z.even q then q else q + 1.

(** [int(a / b)] on ints.  The true division gives the double
    nearest to the quotient (53 significant bits, ties to even) and
    raises [OverflowError] when that is beyond the doubles; [int]
    then cuts the fraction off.  Below 1 the nearest double is 1.0
    from [1 - 2^-54] on. *)
Definition int_truediv (a d : Z) : res Z :=
  if d =? 0 then Raise ZeroDivisionError
  else
    let n := Z.abs a in
    let m := Z.abs d in
    let sign := Z.sgn a * Z.sgn d in
    if n <? m then
      Ok (if (2 ^ 54 - 1) * m <=? 2 ^ 54 * n then sign else 0)
    else
      let e := Z.log2 (n / m) in
      let v := if e <=? 52
               then div_nearest_even (n * 2 ^ (52 - e)) m / 2 ^ (52 - e)
               else div_nearest_even n (m * 2 ^ (e - 52)) * 2 ^ (e - 52) in
      if 2 ^ 1024 <=? v then Raise OverflowError else Ok (sign * v).

(** The statistics logged at the end of [flush]: nothing is assigned,
    but the arithmetic can raise. *)
Definition log_flush_stats (tx_diff last_flush0 : Z) : M t unit :=
  (s <- get ;;
   let daemon_height := cached_height (ticks s) in
   txs_per_sec <- lift (int_truediv (tx_count s) (wall_time s)) ;;
   q <- lift (int_truediv tx_diff (last_flush s - last_flush0)) ;;
   let this_txs_per_sec := 1 + q in
   tx_est <- lift (match daemon_height with
                   | None => Raise TypeError
                   | Some dh =>
                       Ok (if height s >? TX_COUNT_HEIGHT
                           then (dh - height s) * TX_PER_BLOCK
                           else (dh - TX_COUNT_HEIGHT) * TX_PER_BLOCK
                                + (TX_COUNT - tx_count s))
                   end) ;;
   eta <- lift (int_truediv tx_est this_txs_per_sec) ;;
   ret tt)%py.

Definition flush (flush_utxos_flag : bool) : M t unit :=
  (flush_start <- time_time ;;
   last_flush0 <- gets last_flush ;;
   s <- get ;;
   tx_diff <- on_fs_cache (FSCache.flush (height s) (tx_count s)) ;;
   write_batch (fun batch =>
     batch <- flush_history batch ;;
     batch <- (if flush_utxos_flag then flush_utxos batch else ret batch) ;;
     flush_state batch) ;;;
   flush_state_db ;;;
   log_flush_stats tx_diff last_flush0)%py.

Definition one_MB : Z := 806596.   (* int(1048576 / 1.3) *)

Definition cache_sizes : M t (Z * Z) :=
  (s <- get ;;
   let utxo_cache_size := utxo_cache_len (utxo_cache s) * 187 in
   let db_cache_size := utxo_db_cache_len (utxo_cache s) * 105 in
   let hist_cache_size :=
     Z.of_nat (size (history s)) * 180 + history_size s * 4 in
   let utxo_MB := (db_cache_size + utxo_cache_size) / one_MB in
   let hist_MB := hist_cache_size / one_MB in
   match cached_height (ticks s) with
   | None => raise TypeError         (* '{:,d}'.format(None) *)
   | Some _ => ret (utxo_MB, hist_MB)
   end)%py.

(** *** Applying blocks *)

(** [self.history[hash168].append(tx_num)]: the [defaultdict] gives a
    missing key an empty array before [append] runs. *)
Definition history_append (hash168 : aid) (tx_num : Z) : M t unit :=
  fun s =>
    let a := default [] (history s !! hash168) in
    match array_append a tx_num with
    | Ok a' => (Ok tt, set_history (<[hash168 := a']> (history s)) s)
    | Raise e => (Raise e, set_history (<[hash168 := a]> (history s)) s)
    end.

Fixpoint spend_inputs (txins : list TxInput) (hash168s : gset aid)
    : M t (gset aid) :=
  match txins with
  | [] => ret hash168s
  | txin :: rest =>
      (a <- on_utxo_cache (fun d f => utxo_spend d f (prevout txin)) ;;
       spend_inputs rest (hash168s ∪ {[a]}))%py
  end.

(** The set [hash168s] is gone through in the order of [elements];
    the arrays appended to are those of distinct keys. *)
Definition process_tx (tx_hash : bytes) (tx : Tx) : M t unit :=
  (tx_num <- gets tx_count ;;
   hash168s <- on_utxo_cache (fun d f =>
                 utxo_add_many d f tx_hash tx_num (outputs tx)) ;;
   hash168s <- (if is_coinbase tx then ret hash168s
                else spend_inputs (inputs tx) hash168s) ;;
   for_each (elements hash168s) (fun hash168 =>
     history_append hash168 tx_num) ;;;
   modify (fun s =>
     set_history_size (history_size s + Z.of_nat (size hash168s)) s) ;;;
   modify (fun s => set_tx_count (tx_count s + 1) s))%py.

Definition process_block (block : bytes) : M t unit :=
  (triple <- on_fs_cache (FSCache.process_block read_block block) ;;
   let '(header, tx_hashes, txs) := triple in
   hh <- lift (header_hashes header) ;;
   let '(prev_hash, header_hash) := hh in
   s <- get ;;
   if bool_decide (prev_hash <> tip s) then
     raise (ChainError (PrevHashMismatch prev_hash (tip s)))
   else
     modify (set_tip header_hash) ;;;
     modify (fun s => set_height (height s + 1) s) ;;;
     for_each (combine tx_hashes txs) (fun p =>
       process_tx (fst p) (snd p)) ;;;
     now <- time_time ;;
     s <- get ;;
     if now >? next_cache_check s then
       modify (set_next_cache_check (now + 60)) ;;;
       sizes <- cache_sizes ;;
       let '(utxo_MB', hist_MB') := sizes in
       s <- get ;;
       if (utxo_MB' >=? utxo_MB s) || (hist_MB' >=? hist_MB s)
       then flush (utxo_MB' >=? utxo_MB s)
       else ret tt
     else ret tt)%py.

(** The loop of [start] over one batch of prefetched blocks. *)
Definition process_blocks (blocks : list bytes) : M t unit :=
  for_each blocks process_block.

(** *** Queries

    A generator is run to its end: the entries it yields, in order,
    and how it ends, [Ok tt] for exhaustion or [return] and [Raise e]
    for an exception that escapes it. *)

Definition resolve_limit (limit : pyval) : res Z :=
  match limit with
  | PyNone => Ok (-1)
  | PyInt z => if z >=? 0 then Ok z else Raise AssertionError
  | _ => Raise AssertionError
  end.

(** Where control is after an inner loop. *)
Inductive flow :=
| Next (limit : Z)      (* the loop ran out; [limit] as it stands *)
| Return                (* [return] *)
| Throw (e : exn).

Definition ending (f : flow) : res unit :=
  match f with Throw e => Raise e | _ => Ok tt end.

Fixpoint history_array_loop (s : t) (limit : Z) (a : list Z)
    : list (bytes * Z) * flow :=
  match a with
  | [] => ([], Next limit)
  | tx_num :: rest =>
      if limit =? 0 then ([], Return)
      else match FSCache.get_tx_hash (fs_cache s) tx_num with
           | Raise e => ([], Throw e)
           | Ok y =>
               let (ys, f) := history_array_loop s (limit - 1) rest in
               (y :: ys, f)
           end
  end.

Fixpoint history_loop (s : t) (limit : Z) (entries : list (bytes * bytes))
    : list (bytes * Z) * flow :=
  match entries with
  | [] => ([], Next limit)
  | (key, hist) :: rest =>
      match array_frombytes hist with
      | Raise e => ([], Throw e)
      | Ok a =>
          match history_array_loop s limit a with
          | (ys, Next limit') =>
              let (zs, f) := history_loop s limit' rest in (ys ++ zs, f)
          | (ys, f) => (ys, f)
          end
      end
  end.

Definition get_history (s : t) (hash168 : bytes) (limit : pyval)
    : list (bytes * Z) * res unit :=
  match resolve_limit limit with
  | Raise e => ([], Raise e)
  | Ok limit =>
      let (ys, f) :=
        history_loop s limit (KV.iterator (lit "H" ++ hash168) (db s)) in
      (ys, ending f)
  end.

(** What [get_utxos] would yield: [(tx_num, tx_pos, tx_hash, height,
    value)]. *)
Definition utxo_tuple : Type := Z * Z * bytes * Z * Z.

(** The call [UTXO(...)]: the module neither defines nor imports the
    name [UTXO], so looking it up raises [NameError]. *)
Definition UTXO (tx_num tx_pos : Z) (tx_hash : bytes) (height value : Z)
    : res utxo_tuple :=
  Raise (NameError "UTXO").

Fixpoint utxos_value_loop (s : t) (tx_pos : Z) (v : bytes) (limit : Z)
    (offsets : list nat) : list utxo_tuple * flow :=
  match offsets with
  | [] => ([], Next limit)
  | n :: rest =>
      if limit =? 0 then ([], Return)
      else
        match unpack_le32 (slice v n (n + 4)) with
        | Raise e => ([], Throw e)
        | Ok tx_num =>
        match unpack_le64 (slice v (n + 4) (n + 12)) with
        | Raise e => ([], Throw e)
        | Ok value =>
        match FSCache.get_tx_hash (fs_cache s) tx_num with
        | Raise e => ([], Throw e)
        | Ok (tx_hash, height) =>
        match UTXO tx_num tx_pos tx_hash height value with
        | Raise e => ([], Throw e)
        | Ok u =>
            let (ys, f) := utxos_value_loop s tx_pos v (limit - 1) rest in
            (u :: ys, f)
        end end end end
  end.

Fixpoint utxos_loop (s : t) (limit : Z) (entries : list (bytes * bytes))
    : list utxo_tuple * flow :=
  match entries with
  | [] => ([], Next limit)
  | (k, v) :: rest =>
      match unpack_le16 (last2 k) with
      | Raise e => ([], Throw e)
      | Ok tx_pos =>
          match utxos_value_loop s tx_pos v limit
                  (range_step (length v) 12) with
          | (ys, Next limit') =>
              let (zs, f) := utxos_loop s limit' rest in (ys ++ zs, f)
          | (ys, f) => (ys, f)
          end
      end
  end.

Definition get_utxos (s : t) (hash168 : bytes) (limit : pyval)
    : list utxo_tuple * res unit :=
  match resolve_limit limit with
  | Raise e => ([], Raise e)
  | Ok limit =>
      let (ys, f) :=
        utxos_loop s limit (KV.iterator (lit "u" ++ hash168) (db s)) in
      (ys, ending f)
  end.

(** [get_balance]: the sum of the values [get_utxos] yields. *)
Definition get_balance (s : t) (hash168 : bytes) : res Z :=
  match get_utxos s hash168 PyNone with
  | (utxos, Ok _) => Ok (sum (map (fun u : utxo_tuple => snd u) utxos))
  | (_, Raise e) => Raise e
  end.

(** *** The processing loop

    [start] takes its batches of blocks from the prefetcher;
    [batches] are those it is handed before it next waits.  Running
    out of them leaves the loop waiting in [get_blocks] ([Ok tt]).
    An exception ends the loop through the [finally] clause.  Being
    cancelled while it waits is not modelled. *)

Fixpoint start_loop (batches : list (list bytes)) : M t unit :=
  match batches with
  | [] => ret tt
  | blocks :: rest =>
      (for_each blocks process_block ;;;
       s <- get ;;
       if bool_decide (Some (height s) = cached_height (ticks s)) then
         (* 'caught up to height {:d}'.format(self_height): the name
            [self_height] is not defined *)
         @raise t unit (NameError "self_height") ;;;
         flush true ;;;
         start_loop rest
       else start_loop rest)%py
  end.

Definition start (batches : list (list bytes)) : M t unit :=
  fun s =>
    match start_loop batches s with
    | (Ok tt, s') => (Ok tt, s')
    | (Raise e, s') =>
        (* finally *)
        match cached_height (ticks s') with
        | None => (Raise e, s')
        | Some _ =>
            match flush true s' with
            | (Ok tt, s'') => (Raise e, s'')
            | (Raise e', s'') => (Raise e', s'')
            end
        end
    end.

(** *** Vocabulary of the statements below *)

(** The keys of the chain-state record. *)
Definition state_keys : list string :=
  ["genesis"; "height"; "tx_count"; "tip"; "flush_count";
   "utxo_flush_count"; "wall_time"]%string.

(** [ast.literal_eval] gives back, key by key, the record that
    [repr] wrote for [s]. *)
Definition reads_back (s : t) : bool :=
  match literal_eval (py_repr (state_dict s)) with
  | Ok st =>
      forallb (fun k => bool_decide (st !! k = state_dict s !! k))
              state_keys
  | Raise _ => false
  end.

(** An [array('I')] holds items of 32 bits. *)
Definition array_ok (a : list Z) : Prop :=
  Forall (fun x => 0 <= x <= array_I_max) a.

(** Every array of the history map does. *)
Definition history_arrays_ok (s : t) : Prop :=
  map_Forall (fun _ a => array_ok a) (history s).

(** What has been flushed with the UTXOs is behind what has been
    processed. *)
Definition db_counts_behind (s : t) : Prop :=
  db_height s <= height s /\ db_tx_count s <= tx_count s.

(** The key [flush_history] writes for [hash168] at flush [n]. *)
Definition history_key (hash168 : bytes) (n : Z) : bytes :=
  lit "H" ++ hash168 ++ be_encode 2 n.

(** A property of [self] that a method keeps, however it ends. *)
Definition stable {A} (P : t -> Prop) (m : M t A) : Prop :=
  forall s, P s -> P (snd (m s)).

(** The inputs of a transaction spent one after the other on a UTXO
    cache, the address ids they return added to [hash168s]. *)
Fixpoint spend_all (d : KV.t) (f : FSCache.t) (outpoints : list (bytes * Z))
    (hash168s : gset aid) : M UTXOCache (gset aid) :=
  match outpoints with
  | [] => ret hash168s
  | o :: rest =>
      (a <- utxo_spend d f o ;; spend_all d f rest (hash168s ∪ {[a]}))%py
  end.

(** A history key [recovery] is to delete: prefix [H] and a trailing
    big-endian 16-bit flush id above [utxo_flush_count]. *)
Definition is_excess (utxo_flush_count : Z) (key : bytes) : bool :=
  KV.starts_with (lit "H") key && (be_decode (last2 key) >? utxo_flush_count).

(** Every history key of a database is long enough to end in a
    two-byte flush id. *)
Definition history_keys_ok (d : KV.t) : bool :=
  forallb (fun kv => implb (KV.starts_with (lit "H") (fst kv))
                           (Nat.leb 2 (length (fst kv)))) d.

(** The number of transactions of a block, as the coin parses it. *)
Definition block_tx_count (block : bytes) : Z :=
  match read_block block with
  | Ok (_, _, txs) => len txs
  | Raise _ => 0
  end.

(** The coin gives one hash per transaction. *)
Definition well_parsed (block : bytes) : Prop :=
  forall header tx_hashes txs,
    read_block block = Ok (header, tx_hashes, txs) ->
    length tx_hashes = length txs.

(** The first [limit] entries of [ys]; all of them under a negative
    [limit]. *)
Definition take_limit {A} (limit : Z) (ys : list A) : list A :=
  if limit <? 0 then ys else firstn (Z.to_nat limit) ys.

(** The transaction ordinals stored under the history entries
    [entries], in iteration order. *)
Definition stored_tx_nums (entries : list (bytes * bytes)) : list Z :=
  concat (map (fun kv => match array_frombytes (snd kv) with
                         | Ok a => a
                         | Raise _ => []
                         end) entries).

(** The counter relation of §3. *)
Definition flush_counts_ok (s : t) : Prop :=
  utxo_flush_count s <= flush_count s.

(** The state record of a database has its counters in order: it
    is a record [flush_state] writes for a processor whose counters
    are in order, or it reads back as a mapping whose
    [utxo_flush_count] does not exceed its [flush_count]. *)
Definition stored_counts_ok (d : KV.t) : Prop :=
  exists raw,
    KV.get (lit "state") d = Some raw
    /\ ((exists s0, flush_counts_ok s0 /\ raw = py_repr (state_dict s0))
        \/ (exists st fc ufc,
              literal_eval raw = Ok st
              /\ st !! "flush_count"%string = Some (PyInt fc)
              /\ st !! "utxo_flush_count"%string = Some (PyInt ufc)
              /\ ufc <= fc)).

(** The states of a processor: constructed over whatever is on disk,
    then any number of [process_block] and [flush] calls, each taken
    in the state it leaves behind whether it returns or raises. *)
Inductive reachable : t -> Prop :=
| reach_init disk hs ths cs :
    fst (init disk hs ths cs) = Ok tt ->
    reachable (snd (init disk hs ths cs))
| reach_process_block block s :
    reachable s -> reachable (snd (process_block block s))
| reach_flush flag s :
    reachable s -> reachable (snd (flush flag s)).

End WithWorld.
End BlockProcessor.

(** ** A test world

    A synthetic coin and a one-level UTXO cache on which the definitions
    above can be run.  A block is a 64-byte header, the previous hash
    followed by the block's own, then four bytes per transaction: its
    hash, the coinbase flag, the hash byte of the output it spends and
    the script byte of the output it creates. *)

Module Toy.

Fixpoint read_txs (bs : bytes) : res (list (bytes * Tx)) :=
  match bs with
  | [] => Ok []
  | h :: cb :: spent :: script :: rest =>
      match read_txs rest with
      | Raise e => Raise e
      | Ok txs =>
          Ok (([h],
               {| inputs := [{| prevout := ([spent], 0) |}];
                  outputs := [{| value := 50; pk_script := [script] |}];
                  is_coinbase := negb (bool_decide (cb = "000"%byte)) |})
                :: txs)
      end
  | _ => Raise ValueError
  end.

Definition parse_block (block : bytes)
    : res (bytes * list bytes * list Tx) :=
  if Nat.ltb (length block) 64 then Raise ValueError
  else match read_txs (skipn 64 block) with
       | Raise e => Raise e
       | Ok txs => Ok (firstn 64 block, map fst txs, map snd txs)
       end.

Definition split_header (header : bytes) : res (bytes * bytes) :=
  Ok (firstn 32 header, skipn 32 header).

(** The UTXO cache: the unspent outputs, by outpoint. *)
Definition cache := list (bytes * Z * aid).

Fixpoint add_outputs (tx_hash : bytes) (pos : Z) (outs : list TxOutput)
    (c : cache) : gset aid * cache :=
  match outs with
  | [] => (∅, c)
  | o :: rest =>
      let (aids, c') := add_outputs tx_hash (pos + 1) rest c in
      ({[Some (pk_script o)]} ∪ aids,
       (tx_hash, pos, Some (pk_script o)) :: c')
  end.

Definition add_many (_ : KV.t) (_ : FSCache.t) (tx_hash : bytes)
    (tx_num : Z) (outs : list TxOutput) : M cache (gset aid) :=
  fun c => let (aids, c') := add_outputs tx_hash 0 outs c in (Ok aids, c').

Fixpoint take (outpoint : bytes * Z) (c : cache) : option (aid * cache) :=
  match c with
  | [] => None
  | (h, pos, a) :: rest =>
      if bool_decide ((h, pos) = outpoint) then Some (a, rest)
      else match take outpoint rest with
           | Some (a', rest') => Some (a', (h, pos, a) :: rest')
           | None => None
           end
  end.

Definition spend (_ : KV.t) (_ : FSCache.t) (outpoint : bytes * Z)
    : M cache aid :=
  fun c => match take outpoint c with
           | Some (a, c') => (Ok a, c')
           | None => (Raise (OtherError "CorruptIndex"), c)
           end.

Definition flush_cache (_ : KV.t) (_ : FSCache.t) (batch : KV.batch)
    : M cache KV.batch :=
  fun c => (Ok batch, []).

(** A serialisation of the chain-state record that can be read back:
    every byte string is written with a marker before each byte and a
    zero after the last. *)
Definition enc_bytes (bs : bytes) : bytes :=
  concat (map (fun x => ["001"%byte; x]) bs) ++ ["000"%byte].

Fixpoint dec_bytes (bs : bytes) : option (bytes * bytes) :=
  match bs with
  | "000"%byte :: rest => Some ([], rest)
  | "001"%byte :: x :: rest =>
      match dec_bytes rest with
      | Some (xs, rest') => Some (x :: xs, rest')
      | None => None
      end
  | _ => None
  end.

Definition enc_Z (z : Z) : bytes :=
  (if z <? 0 then "001"%byte else "000"%byte)
    :: enc_bytes (le_encode (Z.to_nat (Z.log2 (Z.abs z) / 8 + 1)) (Z.abs z)).

Definition dec_Z (bs : bytes) : option (Z * bytes) :=
  match bs with
  | sign :: rest =>
      match dec_bytes rest with
      | Some (digits, rest') =>
          Some (if bool_decide (sign = "000"%byte)
                then le_decode digits else - le_decode digits, rest')
      | None => None
      end
  | [] => None
  end.

Definition enc_val (v : pyval) : bytes :=
  match v with
  | PyInt z => "000"%byte :: enc_Z z
  | PyBytes x => "001"%byte :: enc_bytes x
  | PyStr s => "002"%byte :: enc_bytes (list_byte_of_string s)
  | PyNone => ["003"%byte]
  end.

Definition dec_val (bs : bytes) : option (pyval * bytes) :=
  match bs with
  | "000"%byte :: rest =>
      match dec_Z rest with
      | Some (z, r) => Some (PyInt z, r)
      | None => None
      end
  | "001"%byte :: rest =>
      match dec_bytes rest with
      | Some (x, r) => Some (PyBytes x, r)
      | None => None
      end
  | "002"%byte :: rest =>
      match dec_bytes rest with
      | Some (x, r) => Some (PyStr (string_of_list_byte x), r)
      | None => None
      end
  | "003"%byte :: rest => Some (PyNone, rest)
  | _ => None
  end.

Definition repr (d : gmap string pyval) : bytes :=
  concat (map (fun kv => "001"%byte
                           :: enc_bytes (list_byte_of_string (fst kv))
                           ++ enc_val (snd kv))
              (map_to_list d))
    ++ ["000"%byte].

Fixpoint dec_items (fuel : nat) (bs : bytes)
    : option (list (string * pyval)) :=
  match fuel with
  | O => None
  | S fuel' =>
      match bs with
      | ["000"%byte] => Some []
      | "001"%byte :: rest =>
          match dec_bytes rest with
          | Some (k, r) =>
              match dec_val r with
              | Some (v, r') =>
                  match dec_items fuel' r' with
                  | Some items => Some ((string_of_list_byte k, v) :: items)
                  | None => None
                  end
              | None => None
              end
          | None => None
          end
      | _ => None
      end
  end.

Definition eval (bs : bytes) : res (gmap string pyval) :=
  match dec_items (S (length bs)) bs with
  | Some items => Ok (list_to_map items)
  | None => Raise ValueError
  end.

(** The synthetic coin with genesis hash [genesis]. *)
Definition world (genesis : string) : World :=
  {| env_utxo_MB := 1000;
     env_hist_MB := 250;
     GENESIS_HASH := PyStr genesis;
     TX_COUNT := 1000;
     TX_COUNT_HEIGHT := 100;
     TX_PER_BLOCK := 10;
     read_block := parse_block;
     header_hashes := split_header;
     UTXOCache := cache;
     utxo_init := [];
     utxo_add_many := add_many;
     utxo_spend := spend;
     utxo_flush := flush_cache;
     utxo_cache_len := fun c => len c;
     utxo_db_cache_len := fun _ => 0;
     py_repr := repr;
     literal_eval := eval;
     clock := fun n => 100 * Z.of_nat n;
     cached_height := fun _ => Some 10 |}.

(** A daemon at height 100 that serves one 68-byte block per request. *)
Definition daemon : Prefetcher.daemon :=
  {| Prefetcher.height := Ok 100;
     Prefetcher.block_hex_hashes := fun first count => Ok [[x01]];
     Prefetcher.raw_blocks := fun hashes => Ok [repeat x00 68] |}.

(** A daemon that cannot be reached. *)
Definition down : Prefetcher.daemon :=
  {| Prefetcher.height := Raise DaemonError;
     Prefetcher.block_hex_hashes := fun first count => Raise DaemonError;
     Prefetcher.raw_blocks := fun hashes => Raise DaemonError |}.

(** A daemon at height [tip] that answers a request for [count]
    hashes from [first] with the four-byte numbers of those heights,
    and serves for each hash a 68-byte block that starts with it. *)
Definition chain (tip : Z) : Prefetcher.daemon :=
  {| Prefetcher.height := Ok tip;
     Prefetcher.block_hex_hashes := fun first count =>
       Ok (map (fun i => le_encode 4 (first + Z.of_nat i))
               (seq 0 (Z.to_nat count)));
     Prefetcher.raw_blocks := fun hashes =>
       Ok (map (fun h => h ++ repeat x00 64) hashes) |}.

Definition zeros : bytes := repeat "000"%byte 32.
Definition hash_of (x : byte) : bytes := repeat x 32.

(** A block on top of [prev] with hash [hash_of x] and the
    transactions [txs]. *)
Definition block (prev : bytes) (x : byte) (txs : bytes) : bytes :=
  prev ++ hash_of x ++ txs.

End Toy.

(** ** A run of the test world

    A fresh processor applies a block with one coinbase transaction
    paying address [A], then a block whose transaction spends that
    output and pays [B]; it flushes its history without the UTXOs and
    dies; a new processor opens the database it left. *)

Module Scenario.
Import BlockProcessor.

Definition W : World := Toy.world "00".

Definition fresh : @t W := snd (@init W None [] [] []).

Definition block0 : bytes :=
  Toy.block Toy.zeros x01 [x0a; x01; x00; x41].

Definition block1 : bytes :=
  Toy.block (Toy.hash_of x01) x02 [x0b; x00; x0a; x42].

(** A block that does not build on the genesis tip. *)
Definition stray : bytes := Toy.block (Toy.hash_of x07) x02 [].

Definition tx1 : Tx :=
  {| inputs := [{| prevout := ([x0a], 0) |}];
     outputs := [{| value := 50; pk_script := [x42] |}];
     is_coinbase := false |}.

Definition after0 : @t W := snd (@process_block W block0 fresh).
Definition after1 : @t W := snd (@process_block W block1 after0).

(** The processor after a history-only flush; [db crashed] is what a
    crash at this point leaves on disk. *)
Definition crashed : @t W := snd (@flush W false after1).

(** The new processor once [read_state] has adopted the record. *)
Definition restarted : @t W :=
  snd (@read_state W (set_db (db crashed) fresh)).

(** A processor whose adopted record has the counters the wrong way
    round. *)
Definition corrupt : @t W :=
  set_utxo_flush_count 2 (set_flush_count 1 fresh).

(** The database of [after0] with the [u] record of the coinbase
    output: key [u ‖ A ‖ tx_hash[:4] ‖ out_index], value
    [tx_num ‖ amount]. *)
Definition utxo_key : bytes :=
  lit "u" ++ [x41] ++ [x0a; x00; x00; x00] ++ [x00; x00].

Definition utxo_record : bytes := le_encode 4 0 ++ le_encode 8 50.

Definition with_utxo : @t W :=
  set_db (KV.put utxo_key utxo_record (db after0)) after0.

(** The two phases of [process_tx] for [tx1] on the caches of
    [after0]: the outputs added, then the input spent. *)
Definition added : res (gset aid) * Toy.cache :=
  @utxo_add_many W (db after0) (fs_cache after0) [x0b] (tx_count after0)
    (outputs tx1) (utxo_cache after0).

Definition spent : res (gset aid) * Toy.cache :=
  @spend_all W (db after0) (fs_cache after0) (map prevout (inputs tx1))
    (value_or ∅ (fst added)) (snd added).

(** The database a processor of another chain creates. *)
Definition other_chain_db : KV.t :=
  db (snd (@init (Toy.world "ff") None [] [] [])).

(** A database that holds history but no state record. *)
Definition headless_db : KV.t := [(lit "HA" ++ [x00; x01], le_encode 4 0)].

(** A processor whose next flush would be the 65536th. *)
Definition worn : @t W := set_flush_count 65535 fresh.

(** A processor whose next cache check is still ahead. *)
Definition patient : @t W := set_next_cache_check 1000 fresh.

(** A processor one block short of the daemon's height. *)
Definition nearly_level : @t W := set_height 9 fresh.

End Scenario.

(** * Properties *)

(** ** Prefetcher *)

Section PrefetcherProofs.
Import Prefetcher.

Lemma keep_recent_nonempty recent sizes :
  recent <> [] -> keep_recent recent sizes <> [].
Proof.
  intros Hne. unfold keep_recent, len.
  destruct (0 <? _) eqn:E.
  - apply Z.ltb_lt in E. intros Hnil.
    apply (f_equal (@length Z)) in Hnil.
    rewrite length_skipn in Hnil. simpl in Hnil. lia.
  - destruct recent; [congruence | discriminate].
Qed.

Lemma keep_recent_length recent sizes :
  (length recent <= 50)%nat -> (length (keep_recent recent sizes) <= 50)%nat.
Proof.
  intros Hle. unfold keep_recent, len.
  destruct (0 <? _) eqn:E.
  - apply Z.ltb_lt in E. rewrite length_skipn. lia.
  - apply Z.ltb_ge in E. lia.
Qed.

Lemma prefetch_inv d p :
  prefetcher_inv p -> prefetcher_inv (snd (_prefetch d p)).
Proof.
  intros [Hne HB]. unfold _prefetch, bind, lift, get, ret, modify.
  destruct (Prefetcher.height d) as [dh|e]; simpl; [|by split].
  destruct (request p dh) as [[first count]|e]; simpl; [|by split].
  destruct (block_hex_hashes d first count) as [[|h hs]|e]; simpl;
    [by split| |by split].
  destruct (raw_blocks d (h :: hs)) as [blocks|e]; simpl; [|by split].
  split; simpl; [by apply keep_recent_nonempty | done].
Qed.

Lemma reachable_inv p : reachable p -> prefetcher_inv p.
Proof.
  induction 1 as [h | d p _ IH | p blocks p' _ IH Hget].
  - split; [discriminate | reflexivity].
  - by apply prefetch_inv.
  - destruct IH as [Hne HB]. unfold get_blocks in Hget.
    destruct (queue p) as [|[bs total] rest]; [discriminate|].
    injection Hget as _ <-. by split.
Qed.

Lemma request_inv p daemon_height :
  prefetcher_inv p ->
  request p daemon_height
  = Ok (fetched_height p + 1, spec_count p daemon_height).
Proof.
  intros [Hne HB]. unfold request, _prefill_count, floordiv, spec_count,
    avg_recent_size. rewrite HB.
  assert (Hlen : (len (recent_sizes p) =? 0) = false).
  { apply Z.eqb_neq. unfold len. destruct (recent_sizes p); [done|].
    simpl. lia. }
  rewrite Hlen.
  destruct ((_ / _) =? 0) eqn:E; simpl.
  - reflexivity.
  - by rewrite Z.max_comm.
Qed.

Lemma keep_recent_last_n recent sizes :
  keep_recent recent sizes = last_n 50 (recent ++ sizes).
Proof.
  unfold keep_recent, last_n, len.
  destruct (0 <? _) eqn:E.
  - apply Z.ltb_lt in E. f_equal. lia.
  - apply Z.ltb_ge in E.
    by replace (length (recent ++ sizes) - 50)%nat with 0%nat by lia.
Qed.

(** What a round does with a daemon that tells its height: one
    request for hashes, at [fetched_height + 1] and for the count of
    §4.5, and from its answer on the round of the spec. *)
Lemma prefetch_round d p daemon_height :
  prefetcher_inv p ->
  Prefetcher.height d = Ok daemon_height ->
  _prefetch d p
  = spec_round d p
      (block_hex_hashes d (fetched_height p + 1)
         (spec_count p daemon_height)).
Proof.
  intros Hinv Hh. unfold _prefetch, bind, lift, get, ret, modify.
  rewrite Hh. simpl. rewrite (request_inv p daemon_height Hinv). simpl.
  destruct (block_hex_hashes d _ _) as [[|h hs]|e]; simpl; [done| |done].
  destruct (raw_blocks d (h :: hs)) as [blocks|e]; simpl; [|done].
  by rewrite keep_recent_last_n.
Qed.

(** C6: in every state a prefetcher can be in, a round with a daemon
    that tells its height [daemon_height] makes one request for
    hashes: for exactly
    [min(daemon_height − fetched_height, 4000, max(10, B // avg))]
    of them, starting at [fetched_height + 1], where [avg] is the
    integer average of the window and the [max] term is 10 when it
    is zero.  What the daemon answers to that request is all the
    round depends on: it ends as the spec's round does on that
    answer, with the sizes of the blocks fetched taken into the
    window, of which the 50 most recent stay. *)
Theorem prefetch_requests_spec_count p d daemon_height :
  reachable p ->
  Prefetcher.height d = Ok daemon_height ->
  _prefetch d p
  = spec_round d p
      (block_hex_hashes d (fetched_height p + 1)
         (spec_count p daemon_height)).
Proof. intros Hr. apply prefetch_round. by apply reachable_inv. Qed.

(** The window holds at most 50 sizes. *)
Lemma reachable_recent_sizes_le_50 p :
  reachable p -> (length (recent_sizes p) <= 50)%nat.
Proof.
  induction 1 as [h | d p _ IH | p blocks p' _ IH Hget].
  - simpl. lia.
  - unfold _prefetch, bind, lift, get, ret, modify.
    destruct (Prefetcher.height d) as [dh|e]; simpl; [|done].
    destruct (request p dh) as [[first count]|e]; simpl; [|done].
    destruct (block_hex_hashes d first count) as [[|h hs]|e]; simpl;
      [done| |done].
    destruct (raw_blocks d (h :: hs)) as [blocks|e]; simpl; [|done].
    by apply keep_recent_length.
  - unfold get_blocks in Hget.
    destruct (queue p) as [|[bs total] rest]; [discriminate|].
    by injection Hget as _ <-.
Qed.

Lemma prefetch_requests_spec_count_witness :
  let p := snd (_prefetch Toy.daemon (init (-1))) in
  _prefetch (Toy.chain 3) p
  = spec_round (Toy.chain 3) p
      (block_hex_hashes (Toy.chain 3) (fetched_height p + 1)
         (spec_count p 3)).
Proof.
  exact (prefetch_requests_spec_count _ (Toy.chain 3) 3
           (reach_prefetch Toy.daemon _ (reach_init (-1))) eq_refl).
Defined.

(** The round of the witness: three hashes are asked for, from
    height 1 on, and the three blocks served are queued. *)
Example prefetch_round_in_scenario :
  let p := snd (_prefetch Toy.daemon (init (-1))) in
  (fetched_height p + 1, spec_count p 3) = (1, 3)
  /\ block_hex_hashes (Toy.chain 3) 1 3
     = Ok [le_encode 4 1; le_encode 4 2; le_encode 4 3]
  /\ fst (_prefetch (Toy.chain 3) p) = Ok tt
  /\ fetched_height (snd (_prefetch (Toy.chain 3) p)) = 3
  /\ queue_size (snd (_prefetch (Toy.chain 3) p)) = 68 + 3 * 68
  /\ recent_sizes (snd (_prefetch (Toy.chain 3) p)) = [0; 68; 68; 68; 68].
Proof. vm_compute. repeat split. Qed.

Example prefetch_after_one_round :
  let p := snd (_prefetch Toy.daemon (init (-1))) in
  avg_recent_size p = 34 /\ request p 100 = Ok (1, 100)
  /\ request p 100000 = Ok (1, 4000).
Proof. vm_compute. done. Qed.

Example prefetch_at_start : request (init (-1)) 5 = Ok (0, 6).
Proof. reflexivity. Qed.

End PrefetcherProofs.

(** ** The key-value store *)

Section KVProofs.

Lemma KV_compare_eq x y : KV.compare x y = Eq <-> x = y.
Proof.
  revert y. induction x as [|a x IH]; intros [|c y]; simpl; try done.
  destruct (N.compare_spec (Byte.to_N a) (Byte.to_N c)) as [E|E|E].
  - apply (f_equal Byte.of_N) in E. rewrite !Byte.of_to_N in E.
    injection E as ->. rewrite IH. split; congruence.
  - split; [done|]. intros [= -> _]. lia.
  - split; [done|]. intros [= -> _]. lia.
Qed.

Lemma KV_get_put_eq k v db : KV.get k (KV.put k v db) = Some v.
Proof.
  induction db as [|[k' v'] db IH]; simpl.
  - by rewrite bool_decide_true.
  - destruct (KV.compare k k') eqn:E; simpl.
    + by rewrite bool_decide_true.
    + by rewrite bool_decide_true.
    + rewrite bool_decide_false; [done|].
      intros ->. rewrite (proj2 (KV_compare_eq k k) eq_refl) in E. done.
Qed.

Lemma KV_get_put_ne k k' v db :
  k <> k' -> KV.get k' (KV.put k v db) = KV.get k' db.
Proof.
  intros Hne. induction db as [|[k0 v0] db IH]; simpl.
  - by rewrite bool_decide_false.
  - destruct (KV.compare k k0) eqn:E; simpl.
    + apply KV_compare_eq in E as <-. by rewrite !bool_decide_false.
    + by rewrite (bool_decide_false (k = k')).
    + by rewrite IH.
Qed.

Lemma KV_get_delete_eq k db : KV.get k (KV.delete k db) = None.
Proof.
  induction db as [|[k' v'] db IH]; simpl; [done|].
  destruct (decide (k' = k)) as [->|Hne].
  - by rewrite bool_decide_true.
  - rewrite bool_decide_false by done. simpl.
    by rewrite bool_decide_false.
Qed.

Lemma KV_get_delete_ne k k' db :
  k <> k' -> KV.get k' (KV.delete k db) = KV.get k' db.
Proof.
  intros Hne. induction db as [|[k0 v0] db IH]; simpl; [done|].
  destruct (decide (k0 = k)) as [->|Hne0].
  - rewrite bool_decide_true by done. simpl.
    by rewrite bool_decide_false.
  - rewrite bool_decide_false by done. simpl. by rewrite IH.
Qed.

Lemma KV_get_None k db : KV.get k db = None <-> ~ In k (KV.keys db).
Proof.
  induction db as [|[k' v'] db IH]; simpl; [tauto|].
  case_bool_decide; [split; [done | tauto] | rewrite IH; tauto].
Qed.

(** Deleting a list of keys one after the other. *)
Lemma KV_get_delete_all keys k db :
  KV.get k (fold_left (fun d key => KV.delete key d) keys db)
  = if bool_decide (k ∈ keys) then None else KV.get k db.
Proof.
  revert db. induction keys as [|key keys IH]; intros db; simpl.
  - done.
  - rewrite IH. destruct (decide (key = k)) as [->|Hne].
    + rewrite KV_get_delete_eq.
      rewrite (bool_decide_true (k ∈ k :: keys)) by (by left).
      by case_bool_decide.
    + rewrite KV_get_delete_ne by done.
      apply (f_equal (fun c : bool => if c then None else KV.get k db)).
      apply bool_decide_ext. rewrite elem_of_cons.
      split; [by right | by intros [->|?]].
Qed.

Lemma KV_iterator_In prefix db k v :
  In (k, v) (KV.iterator prefix db)
  <-> In (k, v) db /\ KV.starts_with prefix k = true.
Proof. unfold KV.iterator. rewrite filter_In. simpl. tauto. Qed.

End KVProofs.

(** ** BlockProcessor: queries *)

Section QueryProofs.
Context {W : World}.
Import BlockProcessor.

Lemma resolve_limit_bad limit :
  limit <> PyNone -> (forall z, limit = PyInt z -> z < 0) ->
  resolve_limit limit = Raise AssertionError.
Proof.
  intros HNone Hneg. destruct limit as [z| | |]; simpl; try done.
  specialize (Hneg z eq_refl).
  destruct (z >=? 0) eqn:E; [|done]. apply Z.geb_le in E. lia.
Qed.

(** C10: a limit that is neither [None] nor a non-negative int makes
    the first step of either generator fail the assertion of
    [resolve_limit]: nothing is yielded and [AssertionError] escapes. *)
Theorem bad_limit_raises_before_any_yield s hash168 limit :
  limit <> PyNone -> (forall z, limit = PyInt z -> z < 0) ->
  get_history s hash168 limit = ([], Raise AssertionError)
  /\ get_utxos s hash168 limit = ([], Raise AssertionError).
Proof.
  intros HNone Hneg. unfold get_history, get_utxos.
  by rewrite (resolve_limit_bad limit HNone Hneg).
Qed.

(** [get_utxos] never yields: whatever the database holds and
    whatever the limit, the first entry it reaches ends it. *)
Lemma utxos_value_loop_yields_nothing s tx_pos v limit offsets :
  fst (utxos_value_loop s tx_pos v limit offsets) = [].
Proof.
  destruct offsets as [|n rest]; simpl; [done|].
  destruct (limit =? 0); [done|].
  destruct (unpack_le32 _); [|done].
  destruct (unpack_le64 _); [|done].
  by destruct (FSCache.get_tx_hash _ _) as [[h ht]|].
Qed.

Lemma utxos_loop_yields_nothing s limit entries :
  fst (utxos_loop s limit entries) = [].
Proof.
  revert limit. induction entries as [|[k v] rest IH]; intros limit;
    simpl; [done|].
  destruct (unpack_le16 _) as [tx_pos|]; [|done].
  pose proof (utxos_value_loop_yields_nothing s tx_pos v limit
                (range_step (length v) 12)) as Hv.
  destruct (utxos_value_loop _ _ _ _ _) as [ys f]. simpl in Hv. subst ys.
  destruct f as [limit'| |e]; simpl; [|done|done].
  specialize (IH limit'). by destruct (utxos_loop s limit' rest).
Qed.

Lemma get_utxos_yields_nothing s hash168 limit :
  fst (get_utxos s hash168 limit) = [].
Proof.
  unfold get_utxos. destruct (resolve_limit limit) as [l|]; [|done].
  pose proof (utxos_loop_yields_nothing s l
                (KV.iterator (lit "u" ++ hash168) (db s))) as H.
  by destruct (utxos_loop _ _ _).
Qed.

End QueryProofs.

(** C10 at [limit = -1]. *)
Lemma bad_limit_raises_before_any_yield_witness :
  let s := snd (@BlockProcessor.init (Toy.world "00") None [] [] []) in
  BlockProcessor.get_history s [x41] (PyInt (-1)) = ([], Raise AssertionError)
  /\ BlockProcessor.get_utxos s [x41] (PyInt (-1)) = ([], Raise AssertionError).
Proof.
  apply (@bad_limit_raises_before_any_yield (Toy.world "00")).
  - discriminate.
  - intros z [= <-]. lia.
Defined.

(** ** BlockProcessor: state *)

Section StateProofs.
Context {W : World}.
Import BlockProcessor.

Lemma bind_ok {S A C} (m : M S A) (k : A -> M S C) s c s' :
  bind m k s = (Ok c, s') ->
  exists a s1, m s = (Ok a, s1) /\ k a s1 = (Ok c, s').
Proof.
  unfold bind. destruct (m s) as [[a|e] s1]; [eauto | discriminate].
Qed.

Lemma run_ok {S A} (x : res A * S) (d : A) :
  is_ok (fst x) = true -> x = (Ok (value_or d (fst x)), snd x).
Proof. by destruct x as [[a|e] s']. Qed.

Lemma run_ok_tt {S} (x : res unit * S) :
  fst x = Ok tt -> x = (Ok tt, snd x).
Proof. destruct x as [r s']. simpl. by intros ->. Qed.

Lemma stable_ret {A} P (a : A) : stable P (ret a).
Proof. by intros s. Qed.

Lemma stable_raise {A} P e : stable P (@raise t A e).
Proof. by intros s. Qed.

Lemma stable_get P : stable P get.
Proof. by intros s. Qed.

Lemma stable_gets {A} P (f : t -> A) : stable P (gets f).
Proof. by intros s. Qed.

Lemma stable_lift {A} P (r : res A) : stable P (lift r).
Proof. by intros s. Qed.

Lemma stable_modify P f : (forall s, P s -> P (f s)) -> stable P (modify f).
Proof. intros Hf s. apply Hf. Qed.

Lemma stable_bind {A C} P (m : M t A) (k : A -> M t C) :
  stable P m -> (forall a, stable P (k a)) -> stable P (bind m k).
Proof.
  intros Hm Hk s HP. unfold bind. specialize (Hm s HP).
  destruct (m s) as [[a|e] s1]; simpl in *; [by apply Hk | done].
Qed.

Lemma stable_for_each {A} P (xs : list A) body :
  (forall x, stable P (body x)) -> stable P (for_each xs body).
Proof.
  intros Hb. induction xs as [|x xs IH]; simpl.
  - apply stable_ret.
  - apply stable_bind; [apply Hb | by intros _].
Qed.

Lemma stable_time_time P :
  (forall v s, P s -> P (set_ticks v s)) -> stable P time_time.
Proof. intros Hf s. apply Hf. Qed.

Lemma stable_on_utxo_cache {A} P (f : KV.t -> FSCache.t -> M UTXOCache A) :
  (forall v s, P s -> P (set_utxo_cache v s)) -> stable P (on_utxo_cache f).
Proof.
  intros Hf s HP. unfold on_utxo_cache.
  destruct (f _ _ _) as [r c]. by apply Hf.
Qed.

Lemma stable_on_fs_cache {A} P (f : M FSCache.t A) :
  (forall v s, P s -> P (set_fs_cache v s)) -> stable P (on_fs_cache f).
Proof.
  intros Hf s HP. unfold on_fs_cache. destruct (f _) as [r c]. by apply Hf.
Qed.

Lemma stable_history_append P hash168 tx_num :
  (forall v s, P s -> P (set_history v s)) ->
  stable P (history_append hash168 tx_num).
Proof.
  intros Hf s HP. unfold history_append.
  destruct (array_append _ _); by apply Hf.
Qed.

Lemma stable_write_batch P body :
  (forall v s, P s -> P (set_db v s)) ->
  (forall batch, stable P (body batch)) -> stable P (write_batch body).
Proof.
  intros Hf Hb s HP. unfold write_batch. specialize (Hb [] s HP).
  destruct (body [] s) as [[ops|e] s1]; simpl in *; [by apply Hf | done].
Qed.

Lemma stable_spend_inputs P txins hash168s :
  (forall v s, P s -> P (set_utxo_cache v s)) ->
  stable P (spend_inputs txins hash168s).
Proof.
  intros Hf. revert hash168s.
  induction txins as [|txin rest IH]; intros hash168s; simpl.
  - apply stable_ret.
  - apply stable_bind; [by apply stable_on_utxo_cache | intros a; apply IH].
Qed.

Lemma snd_bind {A C} (Q : t -> Prop) (m : M t A) (k : A -> M t C) s :
  Q (snd (m s)) -> (forall a, stable Q (k a)) -> Q (snd (bind m k s)).
Proof.
  intros Hm Hk. unfold bind.
  destruct (m s) as [[a|e] s1]; simpl in *; [by apply Hk | done].
Qed.

Lemma write_batch_ok body s s' :
  write_batch body s = (Ok tt, s') ->
  exists ops s1,
    body [] s = (Ok ops, s1) /\ s' = set_db (KV.commit ops (db s1)) s1.
Proof.
  unfold write_batch. destruct (body [] s) as [[ops|e] s1];
    [|discriminate].
  intros [= <-]. eauto.
Qed.

Lemma snd_bind_ok {A C} (Q : t -> Prop) (m : M t A) (k : A -> M t C)
    s a s1 :
  m s = (Ok a, s1) -> Q (snd (k a s1)) -> Q (snd (bind m k s)).
Proof. unfold bind. by intros ->. Qed.

Lemma snd_write_batch (Q : t -> Prop) body s :
  Q (snd (body [] s)) -> (forall v x, Q x -> Q (set_db v x)) ->
  Q (snd (write_batch body s)).
Proof.
  intros Hb Hdb. unfold write_batch.
  destruct (body [] s) as [[ops|e] s1]; simpl in *; [by apply Hdb | done].
Qed.

Lemma snd_bind_cases {A C} (Q : t -> Prop) (m : M t A) (k : A -> M t C) s :
  (forall a s1, m s = (Ok a, s1) -> Q (snd (k a s1))) ->
  (forall e s1, m s = (Raise e, s1) -> Q s1) ->
  Q (snd (bind m k s)).
Proof.
  intros Hok Hraise. unfold bind.
  destruct (m s) as [[a|e] s1]; simpl; [by apply Hok | by eapply Hraise].
Qed.

Lemma write_batch_raise body s e s' :
  write_batch body s = (Raise e, s') -> body [] s = (Raise e, s').
Proof.
  unfold write_batch. destruct (body [] s) as [[ops|e'] s1].
  - discriminate.
  - by intros [= -> ->].
Qed.

Ltac field_solve :=
  intros;
  repeat match goal with s : t |- _ => destruct s end;
  simpl in *; solve [done | lia | intuition (solve [done | lia])].

Ltac stable_go_with tac :=
  repeat first
    [ tac
    | apply stable_ret | apply stable_raise | apply stable_get
    | apply stable_gets | apply stable_lift
    | apply stable_time_time; [field_solve]
    | apply stable_modify; [field_solve]
    | apply stable_on_utxo_cache; [field_solve]
    | apply stable_on_fs_cache; [field_solve]
    | apply stable_history_append; [field_solve]
    | apply stable_spend_inputs; [field_solve]
    | apply stable_write_batch; [field_solve | intros ?]
    | apply stable_for_each; intros ?
    | apply stable_bind; [|intros ?]
    | match goal with
      | |- stable _ (match ?x with _ => _ end) => destruct x
      end
    | progress unfold flush, flush_history, flush_utxos, flush_state,
        flush_state_db, flush_state_record, log_flush_stats, cache_sizes,
        process_tx, process_block, read_state, adopt_int, adopt_bytes,
        delete_excess_history, open_db ].

Ltac stable_go := stable_go_with fail.

(** *** Recovery *)

Lemma last2_length key : (2 <= length key)%nat -> length (last2 key) = 2%nat.
Proof. intros H. unfold last2. rewrite length_skipn. lia. Qed.

Lemma excess_keys_ok ufc entries :
  (forall k v, In (k, v) entries -> (2 <= length k)%nat) ->
  exists keys,
    excess_keys ufc entries = Ok keys
    /\ forall k, k ∈ keys
                 <-> In k (map fst entries) /\ be_decode (last2 k) > ufc.
Proof.
  induction entries as [|[key hist] rest IH]; intros Hlen; simpl.
  - exists []. split; [done|]. intros k.
    split; [intros H; inversion H | intros [[] _]].
  - destruct IH as (keys & -> & Hkeys).
    { intros k v Hin. apply (Hlen k v). by right. }
    unfold unpack_be16, unpack.
    rewrite (last2_length key) by (apply (Hlen key hist); by left).
    simpl. eexists. split; [done|]. intros k.
    destruct (be_decode (last2 key) >? ufc) eqn:E.
    + apply Z.gtb_lt in E. rewrite elem_of_cons, Hkeys.
      split; [intros [->|[? ?]]; [split; [by left|lia] | tauto]
             | intros [[<-|?] ?]; tauto].
    + rewrite Hkeys. split; [tauto|]. intros [[<-|?] ?]; [|tauto].
      rewrite Z.gtb_ltb in E. apply Z.ltb_ge in E. lia.
Qed.

Lemma for_each_delete keys s :
  for_each keys (fun key => modify (fun s => set_db (KV.delete key (db s)) s)) s
  = (Ok tt, set_db (fold_left (fun d key => KV.delete key d) keys (db s)) s).
Proof.
  revert s. induction keys as [|key keys IH]; intros s; simpl.
  - by destruct s.
  - unfold bind, modify. simpl. rewrite IH. by destruct s.
Qed.

(** C8, first half, as a lemma of its own. *)
Lemma delete_excess_history_corrupt s :
  flush_count s < utxo_flush_count s ->
  delete_excess_history s = (Raise (ChainError FlushCountCorrupt), s).
Proof.
  intros Hlt. unfold delete_excess_history, bind, get. simpl.
  destruct (_ =? 0) eqn:E0; [apply Z.eqb_eq in E0; lia|].
  destruct (_ <? 0) eqn:E1; [done | apply Z.ltb_ge in E1; lia].
Qed.

Lemma delete_excess_history_clean s :
  flush_count s = utxo_flush_count s ->
  delete_excess_history s = (Ok tt, s).
Proof.
  intros Heq. unfold delete_excess_history, bind, get. simpl.
  destruct (_ =? 0) eqn:E0; [done | apply Z.eqb_neq in E0; lia].
Qed.

Lemma delete_excess_history_equalises s s' :
  delete_excess_history s = (Ok tt, s') ->
  utxo_flush_count s' = flush_count s' /\ flush_count s' = flush_count s.
Proof.
  unfold delete_excess_history, bind, get. simpl.
  destruct (_ =? 0) eqn:E0.
  - intros [= <-]. apply Z.eqb_eq in E0. lia.
  - destruct (_ <? 0) eqn:E1; [discriminate|].
    unfold lift. destruct (excess_keys _ _) as [keys|e]; [|discriminate].
    unfold write_batch, bind. rewrite for_each_delete.
    unfold modify, flush_state, flush_state_record, bind, time_time, gets,
      ret. simpl.
    intros [= <-]. by destruct s.
Qed.

Lemma state_is_not_history_key : KV.starts_with (lit "H") (lit "state") = false.
Proof. reflexivity. Qed.

(** C1, as amended: when [flush_count > utxo_flush_count] (and every
    history key is long enough to carry a flush id), recovery succeeds;
    it deletes exactly the keys with prefix [H] whose trailing
    big-endian 16-bit flush id exceeds [utxo_flush_count], rewrites
    the state record and leaves every other key alone; afterwards
    [utxo_flush_count] equals the [flush_count] found, which is
    unchanged. *)
Theorem recovery_deletes_excess_history s :
  flush_count s > utxo_flush_count s ->
  history_keys_ok (db s) = true ->
  exists s',
    delete_excess_history s = (Ok tt, s')
    /\ (forall k,
          KV.get k (db s')
          = if bool_decide (k = lit "state")
            then Some (py_repr (state_dict s'))
            else if is_excess (utxo_flush_count s) k then None
            else KV.get k (db s))
    /\ utxo_flush_count s' = flush_count s
    /\ flush_count s' = flush_count s.
Proof.
  intros Hgt Hlen.
  destruct (excess_keys_ok (utxo_flush_count s)
              (KV.iterator (lit "H") (db s))) as (keys & Hkeys & Hin).
  { intros k v Hkv. apply KV_iterator_In in Hkv as [Hkv Hpre].
    unfold history_keys_ok in Hlen. rewrite forallb_forall in Hlen.
    specialize (Hlen (k, v) Hkv). cbn [fst] in Hlen.
    rewrite Hpre in Hlen. by apply Nat.leb_le in Hlen. }
  unfold delete_excess_history, bind, get. simpl.
  destruct (_ =? 0) eqn:E0; [apply Z.eqb_eq in E0; lia|].
  destruct (_ <? 0) eqn:E1; [apply Z.ltb_lt in E1; lia|].
  rewrite Hkeys. unfold lift, write_batch, bind. rewrite for_each_delete.
  unfold modify, flush_state, flush_state_record, bind, time_time, gets, ret.
  simpl. eexists. split; [reflexivity|].
  split; [|by destruct s].
  intros k. destruct s; simpl in *.
  destruct (decide (k = lit "state")) as [->|Hne].
  - rewrite bool_decide_true by done. by rewrite KV_get_put_eq.
  - rewrite bool_decide_false by done.
    rewrite KV_get_put_ne by done. rewrite KV_get_delete_all.
    unfold is_excess. case_bool_decide as Hk.
    + apply Hin in Hk as [Hk Hid].
      apply in_map_iff in Hk as ([k' v] & <- & Hkv).
      apply KV_iterator_In in Hkv as [_ Hpre].
      replace (KV.starts_with _ k') with true by (symmetry; exact Hpre).
      simpl in Hid |- *. apply Z.gt_lt, Z.gtb_lt in Hid. by rewrite Hid.
    + destruct (KV.starts_with _ k) eqn:Hpre; simpl; [|done].
      destruct (_ >? _) eqn:Hid; [|done].
      apply KV_get_None. intros Hk'. apply Hk, Hin.
      apply Z.gtb_lt in Hid. split; [|lia].
      apply in_map_iff in Hk' as ([k' v] & <- & Hkv).
      apply in_map_iff. exists (k', v). split; [done|].
      by apply KV_iterator_In.
Qed.

Lemma stable_run {A} P (m : M t A) s r s' :
  stable P m -> m s = (r, s') -> P s -> P s'.
Proof. intros Hm Hrun HP. specialize (Hm s HP). by rewrite Hrun in Hm. Qed.

Lemma init_flush_counts_ok disk hs ths cs s :
  init disk hs ths cs = (Ok tt, s) -> flush_counts_ok s.
Proof.
  unfold init. intros H.
  apply bind_ok in H as ([] & s1 & Hopen & H).
  assert (flush_counts_ok s1) as H1.
  { destruct disk as [d|]; simpl in Hopen.
    - apply bind_ok in Hopen as ([] & sa & _ & Hopen).
      apply bind_ok in Hopen as ([] & sb & _ & Hopen).
      apply delete_excess_history_equalises in Hopen as [Heq _].
      unfold flush_counts_ok. lia.
    - unfold bind, modify, flush_state_db, flush_state_record, bind,
        time_time, gets, modify in Hopen. simpl in Hopen.
      injection Hopen as <-. unfold flush_counts_ok. simpl. lia. }
  unfold bind, modify in H. simpl in H. injection H as <-.
  unfold flush_counts_ok in *. by destruct s1.
Qed.

(** The state record on disk. *)

Lemma flush_state_db_run s :
  exists s',
    flush_state_db s = (Ok tt, s')
    /\ db s' = KV.put (lit "state") (py_repr (state_dict s')) (db s)
    /\ flush_count s' = flush_count s
    /\ utxo_flush_count s' = utxo_flush_count s.
Proof.
  unfold flush_state_db, flush_state_record, bind, time_time, gets, modify.
  simpl. eexists. split; [reflexivity|]. by destruct s.
Qed.

Lemma log_flush_stats_state tx_diff last_flush0 s :
  snd (log_flush_stats tx_diff last_flush0 s) = s.
Proof.
  unfold log_flush_stats, bind, get, lift, ret. simpl.
  destruct (int_truediv (tx_count s) _); [|done].
  destruct (int_truediv tx_diff _); [|done].
  destruct (cached_height _); [|done]. simpl.
  by destruct (int_truediv _ _).
Qed.

Lemma flush_keeps_stored_counts_ok flag :
  stable (fun x => utxo_flush_count x <= flush_count x
                   /\ stored_counts_ok (db x)) (flush flag).
Proof.
  intros s [Hc Hs].
  set (Q := fun x : t => utxo_flush_count x <= flush_count x
                         /\ stored_counts_ok (db x)).
  unfold flush.
  eapply (snd_bind_ok Q); [reflexivity|].
  eapply (snd_bind_ok Q); [reflexivity|].
  eapply (snd_bind_ok Q); [reflexivity|].
  eapply (snd_bind_ok Q); [reflexivity|].
  match goal with
  | |- Q (snd (bind (write_batch ?body) _ ?s1)) =>
      set (body0 := body); set (sa := s1)
  end.
  assert (utxo_flush_count sa <= flush_count sa /\ db sa = db s)
    as [Hca Hda] by (subst sa; by destruct s).
  apply (snd_bind_cases Q).
  - intros [] s2 Hwb.
    apply write_batch_ok in Hwb as (ops & sb & Hbody & ->).
    assert (utxo_flush_count sb <= flush_count sb) as Hcb.
    { eapply (stable_run (fun x => utxo_flush_count x <= flush_count x)
                _ _ _ _ _ Hbody Hca). }
    match goal with
    | |- Q (snd (bind flush_state_db _ ?s2)) =>
        destruct (flush_state_db_run s2) as (sc & Hrun & Hdb & Hf & Hu)
    end.
    unfold bind. rewrite Hrun, log_flush_stats_state. split.
    + rewrite Hf, Hu. by destruct sb.
    + exists (py_repr (state_dict sc)). rewrite Hdb.
      split; [apply KV_get_put_eq|]. left. exists sc.
      split; [|done]. unfold flush_counts_ok. rewrite Hf, Hu.
      by destruct sb.
  - intros e sb Hwb. apply write_batch_raise in Hwb.
    assert (utxo_flush_count sb <= flush_count sb /\ db sb = db sa)
      as [Hcb Hdb].
    { eapply (stable_run (fun x => utxo_flush_count x <= flush_count x
                                   /\ db x = db sa) _ _ _ _ _ Hwb).
      by split. }
    split; [done|]. by rewrite Hdb, Hda.
  Unshelve.
  all: subst body0; cbv beta; stable_go.
Qed.

Lemma process_block_keeps_stored_counts_ok block :
  stable (fun x => utxo_flush_count x <= flush_count x
                   /\ stored_counts_ok (db x)) (process_block block).
Proof.
  unfold process_block.
  stable_go_with ltac:(apply flush_keeps_stored_counts_ok).
Qed.

Lemma read_state_ok s s' :
  read_state s = (Ok tt, s') ->
  exists raw st,
    KV.get (lit "state") (db s) = Some raw
    /\ literal_eval raw = Ok st
    /\ st !! "flush_count"%string = Some (PyInt (flush_count s'))
    /\ st !! "utxo_flush_count"%string
       = Some (PyInt (utxo_flush_count s'))
    /\ db s' = db s.
Proof.
  unfold read_state, bind, get, lift, getitem, adopt_int, adopt_bytes,
    bind, lift, getitem, as_int, as_bytes, modify, raise. simpl.
  destruct (KV.get _ _) as [raw|] eqn:Hraw; [|discriminate].
  destruct (literal_eval raw) as [st|] eqn:Hst; [|discriminate].
  destruct (st !! "genesis"%string) as [g|]; [|discriminate].
  destruct (bool_decide _).
  { destruct (st !! "genesis_hash"%string); discriminate. }
  destruct (st !! "height"%string) as [[h| | |]|]; try discriminate.
  destruct (st !! "tx_count"%string) as [[n| | |]|]; try discriminate.
  destruct (st !! "tip"%string) as [[|tp| |]|]; try discriminate.
  destruct (st !! "flush_count"%string) as [[fc| | |]|] eqn:Hfc;
    try discriminate.
  destruct (st !! "utxo_flush_count"%string) as [[ufc| | |]|] eqn:Hufc;
    try discriminate.
  destruct (st !! "wall_time"%string) as [[w| | |]|]; try discriminate.
  intros [= <-]. exists raw, st. destruct s; simpl in *. done.
Qed.

Lemma delete_excess_history_rewrites_record s s' :
  flush_count s <> utxo_flush_count s ->
  delete_excess_history s = (Ok tt, s') ->
  KV.get (lit "state") (db s') = Some (py_repr (state_dict s')).
Proof.
  intros Hne. unfold delete_excess_history, bind, get. simpl.
  destruct (_ =? 0) eqn:E0; [apply Z.eqb_eq in E0; lia|].
  destruct (_ <? 0) eqn:E1; [discriminate|].
  unfold lift. destruct (excess_keys _ _) as [keys|e]; [|discriminate].
  unfold write_batch, bind. rewrite for_each_delete.
  unfold modify, flush_state, flush_state_record, bind, time_time, gets,
    ret. simpl.
  intros [= <-]. destruct s; simpl. apply KV_get_put_eq.
Qed.

Lemma init_stored_counts_ok disk hs ths cs s :
  init disk hs ths cs = (Ok tt, s) -> stored_counts_ok (db s).
Proof.
  unfold init. intros H.
  apply bind_ok in H as ([] & s1 & Hopen & H).
  assert (stored_counts_ok (db s1)) as H1.
  { destruct disk as [d|]; simpl in Hopen.
    - apply bind_ok in Hopen as ([] & sa & Ha & Hopen).
      injection Ha as <-.
      apply bind_ok in Hopen as ([] & sb & Hread & Hdel).
      apply read_state_ok in Hread as (raw & st & Hraw & Hst & Hfc & Hufc & Hdb).
      destruct (decide (flush_count sb = utxo_flush_count sb)) as [Heq|Hne].
      + rewrite (delete_excess_history_clean sb Heq) in Hdel.
        injection Hdel as <-. exists raw. rewrite Hdb.
        split; [done|]. right.
        exists st, (flush_count sb), (utxo_flush_count sb).
        repeat split; try done. lia.
      + pose proof (delete_excess_history_rewrites_record sb s1 Hne Hdel)
          as Hrec.
        apply delete_excess_history_equalises in Hdel as [Heq _].
        eexists. split; [exact Hrec|]. left. exists s1.
        split; [|done]. unfold flush_counts_ok. lia.
    - apply bind_ok in Hopen as ([] & sa & Ha & Hopen).
      injection Ha as <-.
      match type of Hopen with
      | flush_state_db ?x = _ =>
          destruct (flush_state_db_run x) as (sc & Hrun & Hdb & Hf & Hu)
      end.
      rewrite Hrun in Hopen. injection Hopen as <-.
      eexists. rewrite Hdb. split; [apply KV_get_put_eq|].
      left. exists sc. split; [|done].
      unfold flush_counts_ok. rewrite Hf, Hu. simpl. lia. }
  unfold bind, modify in H. simpl in H. injection H as <-.
  by destruct s1.
Qed.

Lemma reachable_flush_counts_ok s :
  reachable s -> flush_counts_ok s /\ stored_counts_ok (db s).
Proof.
  induction 1 as [disk hs ths cs Hinit | block s _ IH | flag s _ IH].
  - apply run_ok_tt in Hinit. split.
    + by apply init_flush_counts_ok in Hinit.
    + by apply init_stored_counts_ok in Hinit.
  - by apply (process_block_keeps_stored_counts_ok block s).
  - by apply (flush_keeps_stored_counts_ok flag s).
Qed.

(** C8: with [flush_count < utxo_flush_count] recovery raises the
    [ChainError] 'DB corrupt: flush_count < utxo_flush_count' and
    leaves the processor, its database included, as it was: no key is
    deleted and the state record is not rewritten.  And in every state
    of a processor that was constructed successfully, whatever blocks
    it has processed and flushes it has made, completed or not,
    [flush_count >= utxo_flush_count], in memory and in the state
    record of its database. *)
Theorem corrupt_flush_counts_rejected_and_order_kept s :
  (flush_count s < utxo_flush_count s ->
   delete_excess_history s = (Raise (ChainError FlushCountCorrupt), s))
  /\ (reachable s ->
      flush_count s >= utxo_flush_count s /\ stored_counts_ok (db s)).
Proof.
  split.
  - apply delete_excess_history_corrupt.
  - intros Hr. apply reachable_flush_counts_ok in Hr as [Hc Hs].
    unfold flush_counts_ok in Hc. split; [lia | done].
Qed.

(** *** The state record *)

Lemma state_dict_has_no_genesis_hash s :
  state_dict s !! "genesis_hash"%string = None.
Proof. reflexivity. Qed.

Lemma state_dict_genesis s :
  state_dict s !! "genesis"%string = Some GENESIS_HASH.
Proof. reflexivity. Qed.

(** On a genesis mismatch [read_state] looks up ['genesis_hash'] for
    its message; a record without that key, as [flush_state] writes
    it, ends the call with [KeyError].  Nothing has been adopted. *)
Lemma read_state_genesis_mismatch_KeyError s raw state g :
  KV.get (lit "state") (db s) = Some raw ->
  literal_eval raw = Ok state ->
  state !! "genesis"%string = Some g ->
  g <> GENESIS_HASH ->
  state !! "genesis_hash"%string = None ->
  read_state s = (Raise (KeyError "genesis_hash"), s).
Proof.
  intros Hraw Heval Hg Hne Hnone.
  unfold read_state, bind, get, lift, getitem. simpl.
  rewrite Hraw, Heval, Hg. rewrite bool_decide_true by done.
  by rewrite Hnone.
Qed.

(** With a ['genesis_hash'] key in the record the [ChainError] is
    raised, naming that entry and the coin's hash. *)
Lemma read_state_genesis_mismatch_ChainError s raw state g g' :
  KV.get (lit "state") (db s) = Some raw ->
  literal_eval raw = Ok state ->
  state !! "genesis"%string = Some g ->
  g <> GENESIS_HASH ->
  state !! "genesis_hash"%string = Some g' ->
  read_state s
  = (Raise (ChainError (GenesisMismatch g' GENESIS_HASH)), s).
Proof.
  intros Hraw Heval Hg Hne Hsome.
  unfold read_state, bind, get, lift, getitem, raise. simpl.
  rewrite Hraw, Heval, Hg. rewrite bool_decide_true by done.
  by rewrite Hsome.
Qed.

Lemma read_state_adopts s raw state h n tp fc ufc w :
  KV.get (lit "state") (db s) = Some raw ->
  literal_eval raw = Ok state ->
  state !! "genesis"%string = Some GENESIS_HASH ->
  state !! "height"%string = Some (PyInt h) ->
  state !! "tx_count"%string = Some (PyInt n) ->
  state !! "tip"%string = Some (PyBytes tp) ->
  state !! "flush_count"%string = Some (PyInt fc) ->
  state !! "utxo_flush_count"%string = Some (PyInt ufc) ->
  state !! "wall_time"%string = Some (PyInt w) ->
  exists s',
    read_state s = (Ok tt, s')
    /\ db_height s' = h /\ db_tx_count s' = n /\ tip s' = tp
    /\ flush_count s' = fc /\ utxo_flush_count s' = ufc
    /\ wall_time s' = w /\ db s' = db s.
Proof.
  intros Hraw Heval Hg Hh Hn Htip Hfc Hufc Hw.
  unfold read_state, bind, get, lift, getitem, adopt_int, adopt_bytes,
    bind, lift, getitem, modify. simpl.
  rewrite Hraw, Heval, Hg. rewrite bool_decide_false by (by intros []).
  rewrite Hh, Hn, Htip, Hfc, Hufc, Hw. simpl.
  eexists. split; [reflexivity|]. by destruct s.
Qed.

(** *** process_block on a block that does not extend the tip *)

(** C2, as amended: a block whose parsed [prev_hash] differs from the
    tip makes [process_block] raise the [ChainError] built from
    [prev_hash] and the tip; [height], [tx_count], [tip], the UTXO
    cache, the history map and its size, and the database are as
    before the call, while the flat-file cache has already taken the
    block's header and transaction hashes. *)
Theorem process_block_reorg_leaves_all_but_fs_cache
    s block header tx_hashes txs prev_hash header_hash :
  read_block block = Ok (header, tx_hashes, txs) ->
  header_hashes header = Ok (prev_hash, header_hash) ->
  prev_hash <> tip s ->
  exists s',
    process_block block s
    = (Raise (ChainError (PrevHashMismatch prev_hash (tip s))), s')
    /\ height s' = height s /\ tx_count s' = tx_count s
    /\ tip s' = tip s /\ utxo_cache s' = utxo_cache s
    /\ history s' = history s /\ history_size s' = history_size s
    /\ db s' = db s
    /\ FSCache.headers (fs_cache s')
       = FSCache.headers (fs_cache s) ++ [header]
    /\ FSCache.tx_hashes (fs_cache s')
       = FSCache.tx_hashes (fs_cache s) ++ tx_hashes.
Proof.
  intros Hread Hhashes Hne.
  unfold process_block, bind, on_fs_cache, FSCache.process_block, bind,
    lift, modify, ret, get, raise. simpl.
  rewrite Hread. simpl. rewrite Hhashes. destruct s; simpl in *.
  rewrite bool_decide_true by done.
  eexists. split; [reflexivity|]. done.
Qed.

(** *** process_tx *)

Lemma spend_inputs_run txins hash168s s :
  spend_inputs txins hash168s s
  = let (r, c) := spend_all (db s) (fs_cache s) (map prevout txins)
                    hash168s (utxo_cache s) in
    (r, set_utxo_cache c s).
Proof.
  revert hash168s s. induction txins as [|txin rest IH];
    intros hash168s s; simpl.
  - by destruct s.
  - unfold bind, on_utxo_cache.
    destruct (utxo_spend _ _ _ _) as [[a|e] c]; simpl; [|done].
    rewrite IH. destruct s; simpl.
    by destruct (spend_all _ _ _ _ _).
Qed.

Lemma history_append_ok hash168 tx_num s :
  0 <= tx_num <= array_I_max ->
  history_append hash168 tx_num s
  = (Ok tt,
     set_history
       (<[hash168 := default [] (history s !! hash168) ++ [tx_num]]>
          (history s)) s).
Proof.
  intros Hrange. unfold history_append, array_append.
  by rewrite (proj2 (andb_true_iff _ _))
    by (split; apply Z.leb_le; lia).
Qed.

Lemma for_each_history_append l tx_num s :
  NoDup l -> 0 <= tx_num <= array_I_max ->
  exists h',
    for_each l (fun hash168 => history_append hash168 tx_num) s
    = (Ok tt, set_history h' s)
    /\ forall a,
         h' !! a = if bool_decide (a ∈ l)
                   then Some (default [] (history s !! a) ++ [tx_num])
                   else history s !! a.
Proof.
  intros Hnd Hrange. revert s.
  induction Hnd as [|x l Hx Hnd IH]; intros s; simpl.
  - exists (history s). split; [by destruct s | done].
  - unfold bind. rewrite history_append_ok by done.
    destruct (IH (set_history
                    (<[x := default [] (history s !! x) ++ [tx_num]]>
                       (history s)) s)) as (h' & -> & Hh').
    exists h'. split; [by destruct s|].
    intros a. rewrite Hh'.
    replace (history (set_history _ s))
      with (<[x := default [] (history s !! x) ++ [tx_num]]> (history s))
      by (by destruct s).
    destruct (decide (a = x)) as [->|Hne].
    + rewrite (bool_decide_false (x ∈ l)) by done.
      rewrite (bool_decide_true (x ∈ x :: l)) by (by left).
      by rewrite lookup_insert_eq.
    + rewrite lookup_insert_ne by done.
      destruct (decide (a ∈ l)) as [Hin|Hnin].
      * rewrite !bool_decide_true; [done | by right | done].
      * rewrite !bool_decide_false; [done | | done].
        by intros [?|?]%elem_of_cons.
Qed.

(** C4: [process_tx] at ordinal [n = tx_count] first adds all the
    outputs to the UTXO cache, giving the address ids [outs] and the
    cache [c1]; then, unless the transaction is a coinbase, spends each
    input's outpoint in turn on [c1], adding the address id returned
    to the set; with [aids] the resulting set and [c2] the resulting
    cache, it returns having appended [n] to the history array of
    every member of [aids] and of no other address id, added
    [|aids|] to [history_size] and 1 to [tx_count], and touched nothing
    else but the UTXO cache, now [c2]. *)
Theorem process_tx_outputs_then_inputs tx_hash tx s outs c1 aids c2 :
  utxo_add_many (db s) (fs_cache s) tx_hash (tx_count s) (outputs tx)
                (utxo_cache s) = (Ok outs, c1) ->
  (if is_coinbase tx then (Ok outs, c1)
   else spend_all (db s) (fs_cache s) (map prevout (inputs tx)) outs c1)
  = (Ok aids, c2) ->
  0 <= tx_count s <= array_I_max ->
  exists s',
    process_tx tx_hash tx s = (Ok tt, s')
    /\ utxo_cache s' = c2
    /\ (forall a,
          history s' !! a
          = if bool_decide (a ∈ aids)
            then Some (default [] (history s !! a) ++ [tx_count s])
            else history s !! a)
    /\ history_size s' = history_size s + Z.of_nat (size aids)
    /\ tx_count s' = tx_count s + 1
    /\ height s' = height s /\ tip s' = tip s /\ db s' = db s
    /\ fs_cache s' = fs_cache s.
Proof.
  intros Hadd Hspend Hrange.
  unfold process_tx, bind, gets, on_utxo_cache, modify. simpl.
  rewrite Hadd. simpl.
  assert ((if is_coinbase tx then ret outs
           else spend_inputs (inputs tx) outs) (set_utxo_cache c1 s)
          = (Ok aids, set_utxo_cache c2 s)) as ->.
  { destruct (is_coinbase tx).
    - injection Hspend as <- <-. reflexivity.
    - rewrite spend_inputs_run.
      replace (db (set_utxo_cache c1 s)) with (db s) by (by destruct s).
      replace (fs_cache (set_utxo_cache c1 s)) with (fs_cache s)
        by (by destruct s).
      replace (utxo_cache (set_utxo_cache c1 s)) with c1
        by (by destruct s).
      rewrite Hspend. by destruct s. }
  destruct (for_each_history_append (elements aids) (tx_count s)
              (set_utxo_cache c2 s) (NoDup_elements aids) Hrange)
    as (h' & -> & Hh').
  eexists. split; [reflexivity|].
  split; [by destruct s|]. split.
  { intros a. specialize (Hh' a).
    replace (history (set_utxo_cache c2 s)) with (history s) in Hh'
      by (by destruct s).
    destruct s; simpl in *. rewrite Hh'.
    apply (f_equal (fun c : bool => if c then _ else _)).
    apply bool_decide_ext, elem_of_elements. }
  by destruct s.
Qed.

(** *** Counting blocks and transactions *)

Lemma process_tx_counts tx_hash tx s s' :
  process_tx tx_hash tx s = (Ok tt, s') ->
  tx_count s' = tx_count s + 1 /\ height s' = height s.
Proof.
  unfold process_tx. intros H.
  apply bind_ok in H as (n & s1 & H1 & H). injection H1 as <- <-.
  apply bind_ok in H as (outs & s2 & H2 & H).
  apply bind_ok in H as (aids & s3 & H3 & H).
  apply bind_ok in H as ([] & s4 & H4 & H).
  unfold bind, modify in H. simpl in H. injection H as <-.
  pose (P := fun x : t => tx_count x = tx_count s /\ height x = height s).
  assert (P s4) as [Htx Hh].
  { eapply (stable_run P _ _ _ _ _ H4).
    eapply (stable_run P _ _ _ _ _ H3).
    eapply (stable_run P _ _ _ _ _ H2). by split. }
  destruct s4; simpl in *. lia.
  Unshelve.
  all: unfold P; stable_go.
Qed.

Lemma for_each_process_tx_counts pairs s s' :
  for_each pairs (fun p => process_tx (fst p) (snd p)) s = (Ok tt, s') ->
  tx_count s' = tx_count s + len pairs /\ height s' = height s.
Proof.
  revert s. induction pairs as [|p pairs IH]; intros s; simpl.
  - intros [= <-]. unfold len. simpl. lia.
  - intros H. apply bind_ok in H as ([] & s1 & H1 & H).
    apply process_tx_counts in H1 as [Htx Hh].
    apply IH in H as [Htx' Hh']. unfold len in *. simpl length.
    lia.
Qed.

Lemma process_block_counts block s s' :
  process_block block s = (Ok tt, s') ->
  exists header tx_hashes txs,
    read_block block = Ok (header, tx_hashes, txs)
    /\ height s' = height s + 1
    /\ tx_count s' = tx_count s + len (combine tx_hashes txs).
Proof.
  unfold process_block. intros H.
  apply bind_ok in H as ([[header tx_hashes] txs] & s1 & H1 & H).
  assert (read_block block = Ok (header, tx_hashes, txs)
          /\ tx_count s1 = tx_count s /\ height s1 = height s)
    as (Hread & Htx1 & Hh1).
  { unfold on_fs_cache, FSCache.process_block, bind, lift, modify, ret
      in H1.
    destruct (read_block block) as [[[hd hs] ts]|e]; simpl in H1;
      [|discriminate].
    injection H1 as <- <- <- <-. by destruct s. }
  exists header, tx_hashes, txs. split; [done|].
  apply bind_ok in H as ([prev_hash header_hash] & s2 & H2 & H).
  unfold lift in H2. injection H2 as _ <-.
  apply bind_ok in H as (sx & s3 & H3 & H). injection H3 as <- <-.
  destruct (bool_decide _); [discriminate|].
  apply bind_ok in H as ([] & s4 & H4 & H). injection H4 as <-.
  apply bind_ok in H as ([] & s5 & H5 & H). injection H5 as <-.
  apply bind_ok in H as ([] & s6 & H6 & H).
  apply for_each_process_tx_counts in H6 as [Htx6 Hh6].
  pose (P := fun x : t => tx_count x = tx_count s6 /\ height x = height s6).
  assert (P s') as [Htx Hh].
  { eapply (stable_run P _ _ _ _ _ H). by split. }
  rewrite Htx, Hh, Htx6, Hh6. destruct s1; simpl in *. lia.
  Unshelve.
  unfold P. stable_go.
Qed.

Lemma process_blocks_counts blocks s s' :
  Forall well_parsed blocks ->
  process_blocks blocks s = (Ok tt, s') ->
  tx_count s' = tx_count s + sum (map block_tx_count blocks)
  /\ height s' = height s + len blocks.
Proof.
  unfold process_blocks. intros Hwp. revert s.
  induction Hwp as [|block blocks Hb Hwp IH]; intros s; simpl.
  - intros [= <-]. unfold len. simpl. lia.
  - intros H. apply bind_ok in H as ([] & s1 & H1 & H).
    apply process_block_counts in H1
      as (header & tx_hashes & txs & Hread & Hh & Htx).
    apply IH in H as [Htx' Hh'].
    unfold block_tx_count at 1. rewrite Hread.
    specialize (Hb _ _ _ Hread).
    unfold len in *. rewrite length_combine in Htx. simpl length. lia.
Qed.

(** C5: from [height = -1] and [tx_count = 0], once [process_block]
    has returned for each block of a sequence in turn, [tx_count] is
    the sum of the blocks' transaction counts and [height] is the
    number of blocks minus one. *)
Theorem counts_after_processed_blocks blocks s :
  height s = -1 -> tx_count s = 0 ->
  Forall well_parsed blocks ->
  fst (process_blocks blocks s) = Ok tt ->
  tx_count (snd (process_blocks blocks s)) = sum (map block_tx_count blocks)
  /\ height (snd (process_blocks blocks s)) = len blocks - 1.
Proof.
  intros Hh Htx Hwp Hrun. apply run_ok_tt in Hrun.
  destruct (process_blocks_counts blocks s _ Hwp Hrun). lia.
Qed.

(** Each [process_block] that returns has raised [height] by one. *)
Lemma process_block_height block s s' :
  process_block block s = (Ok tt, s') -> height s' = height s + 1.
Proof.
  intros H. apply process_block_counts in H as (? & ? & ? & _ & Hh & _).
  done.
Qed.

(** *** flush *)

Lemma flush_history_flush_count batch s :
  flush_count (snd (flush_history batch s)) = flush_count s + 1.
Proof.
  unfold flush_history, bind, modify, get, lift, ret. simpl.
  destruct (pack_be16 _) as [flush_id|e]; simpl; [|by destruct s].
  destruct (history_puts _ _) as [puts|e]; simpl; by destruct s.
Qed.

Lemma flush_flush_count flag s :
  flush_count (snd (flush flag s)) = flush_count s + 1.
Proof.
  unfold flush.
  eapply snd_bind_ok; [reflexivity|].
  eapply snd_bind_ok; [reflexivity|].
  eapply snd_bind_ok; [reflexivity|].
  eapply snd_bind_ok; [reflexivity|].
  apply (snd_bind (fun x => flush_count x = flush_count s + 1));
    [|intros; stable_go].
  apply (snd_write_batch (fun x => flush_count x = flush_count s + 1));
    [|field_solve].
  apply (snd_bind (fun x => flush_count x = flush_count s + 1));
    [|intros; stable_go].
  rewrite flush_history_flush_count. by destruct s.
Qed.

Lemma flush_history_only_frame s :
  stable (fun x => utxo_flush_count x = utxo_flush_count s
                   /\ db_height x = db_height s
                   /\ db_tx_count x = db_tx_count s) (flush false).
Proof. unfold flush. cbv iota. stable_go. Qed.

Lemma flush_keeps_counts flag v w :
  stable (fun x => tx_count x = v /\ height x = w) (flush flag).
Proof. stable_go. Qed.

Lemma flush_utxos_ok batch s batch' s' :
  flush_utxos batch s = (Ok batch', s') ->
  utxo_flush_count s' = flush_count s
  /\ db_tx_count s' = tx_count s /\ db_height s' = height s
  /\ flush_count s' = flush_count s /\ tx_count s' = tx_count s
  /\ height s' = height s.
Proof.
  unfold flush_utxos. intros H.
  apply bind_ok in H as (b1 & s1 & H1 & H).
  unfold bind, modify, ret in H. simpl in H. injection H as _ <-.
  unfold on_utxo_cache in H1. destruct (utxo_flush _ _ _ _) as [r c].
  injection H1 as _ <-. by destruct s.
Qed.

(** C9: a flush without the UTXOs, however it ends, has added exactly
    1 to [flush_count] and left [utxo_flush_count], [db_height] and
    [db_tx_count] as they were; a flush with the UTXOs that returns
    has added 1 to [flush_count] and set [utxo_flush_count] to the new
    [flush_count], [db_height] to [height] and [db_tx_count] to
    [tx_count]. *)
Theorem flush_assigns_utxo_fields_only_with_utxos s :
  (let s' := snd (flush false s) in
   flush_count s' = flush_count s + 1
   /\ utxo_flush_count s' = utxo_flush_count s
   /\ db_height s' = db_height s
   /\ db_tx_count s' = db_tx_count s)
  /\ (fst (flush true s) = Ok tt ->
      let s' := snd (flush true s) in
      flush_count s' = flush_count s + 1
      /\ utxo_flush_count s' = flush_count s'
      /\ db_height s' = height s /\ height s' = height s
      /\ db_tx_count s' = tx_count s /\ tx_count s' = tx_count s).
Proof.
  split.
  - split; [apply flush_flush_count|].
    by apply (flush_history_only_frame s s).
  - intros H. apply run_ok_tt in H. simpl.
    generalize dependent (snd (flush true s)). intros s' H.
    pose proof (flush_flush_count true s) as Hfc. rewrite H in Hfc.
    simpl in Hfc.
    pose proof (flush_keeps_counts true (tx_count s) (height s) s
                  (conj eq_refl eq_refl)) as Hc.
    rewrite H in Hc. simpl in Hc. destruct Hc as [Htx Hh].
    unfold flush in H.
    apply bind_ok in H as (t0 & s1 & H1 & H). injection H1 as _ <-.
    apply bind_ok in H as (lf & s2 & H2 & H). injection H2 as _ <-.
    apply bind_ok in H as (sx & s3 & H3 & H). injection H3 as <- <-.
    apply bind_ok in H as (tx_diff & s4 & H4 & H).
    unfold on_fs_cache, FSCache.flush in H4. injection H4 as _ <-.
    apply bind_ok in H as ([] & s5 & H5 & H).
    apply write_batch_ok in H5 as (ops & s6 & H5 & ->).
    apply bind_ok in H5 as (b1 & sa & Ha & H5).
    apply bind_ok in H5 as (b2 & sb & Hb & H5).
    apply flush_utxos_ok in Hb as (Hu & Hdt & Hdh & Hf & Ht' & Hh').
    match type of Ha with
    | flush_history [] ?x = _ =>
        pose proof (flush_history_flush_count [] x) as Hfa
    end.
    rewrite Ha in Hfa. simpl in Hfa.
    pose (P := fun x : t =>
                 utxo_flush_count x = utxo_flush_count sb
                 /\ db_height x = db_height sb
                 /\ db_tx_count x = db_tx_count sb).
    assert (P s6) as Hs6.
    { eapply (stable_run P _ _ _ _ _ H5). by repeat split. }
    assert (P s') as (Hu' & Hdh' & Hdt').
    { eapply (stable_run P _ _ _ _ _ H).
      unfold P in *. by destruct s6. }
    assert (tx_count sa = tx_count s /\ height sa = height s)
      as [Hta Hha].
    { eapply (stable_run (fun x => tx_count x = tx_count s
                                   /\ height x = height s) _ _ _ _ _ Ha).
      by destruct s. }
    rewrite Hu', Hdh', Hdt', Hu, Hdt, Hdh, Hfc, Hfa, Hta, Hha.
    destruct s; simpl in *. repeat split; lia.
    Unshelve.
    all: unfold P; stable_go.
Qed.

(** *** get_history and its limit *)

Lemma take_limit_nil {A} limit : take_limit limit (@nil A) = [].
Proof. unfold take_limit. destruct (limit <? 0); [done|]. by rewrite firstn_nil. Qed.

Lemma take_limit_cons {A} limit (y : A) ys :
  limit <> 0 ->
  take_limit limit (y :: ys) = y :: take_limit (limit - 1) ys.
Proof.
  intros Hne. unfold take_limit.
  destruct (limit <? 0) eqn:E.
  - apply Z.ltb_lt in E.
    by rewrite (proj2 (Z.ltb_lt (limit - 1) 0)) by lia.
  - apply Z.ltb_ge in E.
    rewrite (proj2 (Z.ltb_ge (limit - 1) 0)) by lia.
    replace (Z.to_nat limit) with (S (Z.to_nat (limit - 1))) by lia.
    done.
Qed.

Lemma take_limit_app {A} limit (ys zs : list A) :
  limit < 0 \/ len ys <= limit ->
  take_limit limit (ys ++ zs) = ys ++ take_limit (limit - len ys) zs.
Proof.
  unfold take_limit, len. intros [Hneg|Hge].
  - by rewrite !(proj2 (Z.ltb_lt _ 0)) by lia.
  - rewrite !(proj2 (Z.ltb_ge _ 0)) by lia.
    rewrite firstn_app, firstn_all2 by lia.
    do 2 f_equal. lia.
Qed.

Lemma take_limit_all {A} limit (ys : list A) :
  limit < 0 \/ len ys <= limit -> take_limit limit ys = ys.
Proof.
  unfold take_limit, len. intros [Hneg|Hge].
  - by rewrite (proj2 (Z.ltb_lt _ 0)) by lia.
  - rewrite (proj2 (Z.ltb_ge _ 0)) by lia. apply firstn_all2. lia.
Qed.

Lemma take_limit_app_short {A} limit (ys zs : list A) :
  0 <= limit < len ys ->
  take_limit limit (ys ++ zs) = take_limit limit ys.
Proof.
  unfold take_limit, len. intros Hlt.
  rewrite (proj2 (Z.ltb_ge limit 0)) by lia.
  rewrite firstn_app.
  replace (Z.to_nat limit - length ys)%nat with 0%nat by lia.
  by rewrite firstn_O, app_nil_r.
Qed.

Ltac zbool :=
  repeat match goal with
         | H : (_ <=? _) = true |- _ => apply Z.leb_le in H
         | H : (_ <=? _) = false |- _ => apply Z.leb_gt in H
         | H : (_ <? _) = true |- _ => apply Z.ltb_lt in H
         | H : (_ <? _) = false |- _ => apply Z.ltb_ge in H
         end.

Lemma history_array_loop_spec s limit a ys :
  Forall2 (fun n y => FSCache.get_tx_hash (fs_cache s) n = Ok y) a ys ->
  history_array_loop s limit a
  = (take_limit limit ys,
     if (0 <=? limit) && (limit <? len a) then Return
     else Next (limit - len a)).
Proof.
  intros Hres. revert limit.
  induction Hres as [|n y a ys Hn Hres IH]; intros limit; simpl.
  - rewrite take_limit_nil. change (len (@nil Z)) with 0.
    replace (limit - 0) with limit by lia.
    destruct (0 <=? limit) eqn:E0, (limit <? 0) eqn:E1;
      try done; zbool; lia.
  - destruct (limit =? 0) eqn:E.
    + apply Z.eqb_eq in E as ->. unfold len. simpl length.
      rewrite (proj2 (Z.ltb_lt 0 _)) by lia. reflexivity.
    + apply Z.eqb_neq in E. rewrite Hn, IH.
      rewrite take_limit_cons by done. f_equal.
      unfold len. simpl length.
      replace (limit - 1 - Z.of_nat (length a))
        with (limit - Z.of_nat (S (length a))) by lia.
      destruct (0 <=? limit - 1) eqn:E0, (0 <=? limit) eqn:E1,
        (limit - 1 <? Z.of_nat (length a)) eqn:E2,
        (limit <? Z.of_nat (S (length a))) eqn:E3; simpl; try done;
        zbool; lia.
Qed.

Lemma history_loop_spec s limit entries ys :
  Forall (fun kv => is_ok (array_frombytes (snd kv)) = true) entries ->
  Forall2 (fun n y => FSCache.get_tx_hash (fs_cache s) n = Ok y)
          (stored_tx_nums entries) ys ->
  exists f,
    history_loop s limit entries = (take_limit limit ys, f)
    /\ ending f = Ok tt.
Proof.
  intros Hdec. revert limit ys.
  induction Hdec as [|[k v] entries Hv Hdec IH]; intros limit ys Hres.
  - apply Forall2_nil_inv_l in Hres as ->. simpl.
    rewrite take_limit_nil. by eexists.
  - unfold stored_tx_nums in Hres. simpl in Hres, Hv. simpl.
    destruct (array_frombytes v) as [a|e]; [|discriminate].
    apply Forall2_app_inv_l in Hres as (ys1 & ys2 & H1 & H2 & ->).
    rewrite (history_array_loop_spec s limit a ys1 H1).
    assert (len a = len ys1) as Hlen
      by (unfold len; f_equal; eapply Forall2_length, H1).
    destruct ((0 <=? limit) && (limit <? len a)) eqn:E.
    + apply andb_true_iff in E as [E0 E1].
      apply Z.leb_le in E0. apply Z.ltb_lt in E1.
      rewrite take_limit_app_short by lia. by eexists.
    + destruct (IH (limit - len a) ys2 H2) as (f & -> & Hf).
      exists f. split; [|done].
      assert (limit < 0 \/ len ys1 <= limit) as Hall.
      { apply andb_false_iff in E as [E|E];
          [apply Z.leb_gt in E | apply Z.ltb_ge in E]; lia. }
      by rewrite take_limit_app, take_limit_all, Hlen.
Qed.

(** X21: over a database whose history records for [hash168] decode
    and whose transaction ordinals resolve to [ys]: a non-negative
    limit [n] yields the first [n] of them, all of them when there
    are fewer, and [None] yields them all. *)
Theorem get_history_limit s hash168 ys :
  Forall (fun kv => is_ok (array_frombytes (snd kv)) = true)
         (KV.iterator (lit "H" ++ hash168) (db s)) ->
  Forall2 (fun n y => FSCache.get_tx_hash (fs_cache s) n = Ok y)
          (stored_tx_nums (KV.iterator (lit "H" ++ hash168) (db s))) ys ->
  (forall n, 0 <= n ->
     get_history s hash168 (PyInt n) = (firstn (Z.to_nat n) ys, Ok tt))
  /\ get_history s hash168 PyNone = (ys, Ok tt).
Proof.
  intros Hdec Hres. split.
  - intros n Hn. unfold get_history, resolve_limit.
    rewrite (proj2 (Z.geb_le n 0)) by lia.
    destruct (history_loop_spec s n _ ys Hdec Hres) as (f & -> & ->).
    unfold take_limit. by rewrite (proj2 (Z.ltb_ge n 0)) by lia.
  - unfold get_history, resolve_limit.
    by destruct (history_loop_spec s (-1) _ ys Hdec Hres) as (f & -> & ->).
Qed.

(** *** Opening a database *)

(** X8: constructing a processor where there is no database never
    fails: the processor starts at height -1 with no transactions,
    the all-zero tip and both flush counters at 0, and the database
    it creates holds exactly one key, the state record of that
    processor. *)
Theorem init_fresh_database hs ths cs :
  let r := init None hs ths cs in
  fst r = Ok tt
  /\ (height (snd r), tx_count (snd r), db_height (snd r),
      db_tx_count (snd r), flush_count (snd r), utxo_flush_count (snd r))
     = (-1, 0, -1, 0, 0, 0)
  /\ tip (snd r) = repeat "000"%byte 32
  /\ history (snd r) = ∅
  /\ db (snd r) = [(lit "state", py_repr (state_dict (snd r)))].
Proof. simpl. repeat split. Qed.

(** X11: an existing database without a state record cannot be
    opened: the constructor fails with [AttributeError] (raised by
    [None.decode()]) and the database is left as it was found. *)
Theorem init_without_state_record d hs ths cs :
  KV.get (lit "state") d = None ->
  fst (init (Some d) hs ths cs) = Raise AttributeError
  /\ db (snd (init (Some d) hs ths cs)) = d.
Proof.
  intros Hnone. unfold init, open_db, bind, modify, read_state, bind,
    get, lift. simpl. by rewrite Hnone.
Qed.

(** X10: recovery is idempotent: once [delete_excess_history] has
    returned, running it again returns at once and changes nothing,
    neither in the processor nor in its database. *)
Theorem recovery_idempotent s :
  fst (delete_excess_history s) = Ok tt ->
  delete_excess_history (snd (delete_excess_history s))
  = (Ok tt, snd (delete_excess_history s)).
Proof.
  intros H. apply run_ok_tt in H.
  apply delete_excess_history_equalises in H as [Heq _].
  by apply delete_excess_history_clean.
Qed.

(** *** Flush ids in history keys *)

Lemma Z_of_byte_of_Z z : Z_of_byte (byte_of_Z z) = z mod 256.
Proof.
  unfold Z_of_byte, byte_of_Z.
  pose proof (Z.mod_pos_bound z 256 ltac:(lia)) as Hb.
  destruct (Byte.of_N (Z.to_N (z mod 256))) as [x|] eqn:E.
  - apply Byte.to_of_N in E. rewrite E. lia.
  - apply Byte.of_N_None_iff in E. lia.
Qed.




(** *** Restart *)

Lemma flush_ok_record flag s :
  fst (flush flag s) = Ok tt ->
  KV.get (lit "state") (db (snd (flush flag s)))
  = Some (py_repr (state_dict (snd (flush flag s)))).
Proof.
  intros H. apply run_ok_tt in H.
  generalize dependent (snd (flush flag s)). intros s' H.
  unfold flush in H.
  apply bind_ok in H as (t0 & s1 & _ & H).
  apply bind_ok in H as (lf & s2 & _ & H).
  apply bind_ok in H as (sx & s3 & _ & H).
  apply bind_ok in H as (tx_diff & s4 & _ & H).
  apply bind_ok in H as ([] & s5 & _ & H).
  apply bind_ok in H as ([] & s6 & Hdb & H).
  pose proof (log_flush_stats_state tx_diff lf s6) as Hlog.
  rewrite H in Hlog. simpl in Hlog. subst s6.
  destruct (flush_state_db_run s5) as (sc & Hrun & Hput & _).
  rewrite Hrun in Hdb. injection Hdb as <-.
  rewrite Hput. apply KV_get_put_eq.
Qed.

Lemma reads_back_lookups s :
  reads_back s = true ->
  exists st,
    literal_eval (py_repr (state_dict s)) = Ok st
    /\ forall k, In k state_keys -> st !! k = state_dict s !! k.
Proof.
  unfold reads_back.
  destruct (literal_eval _) as [st|e]; [|discriminate].
  intros H. exists st. split; [done|]. intros k Hk.
  rewrite forallb_forall in H. specialize (H k Hk).
  by apply bool_decide_eq_true in H.
Qed.

(** X9: what a flush that returns has written is what a restart
    reads: provided [ast.literal_eval] gives back the record that
    [repr] wrote, [read_state] on the database the flush left adopts
    its [db_height], [db_tx_count], [tip], [flush_count],
    [utxo_flush_count] and [wall_time]; and when the two flush
    counters are equal, as after a flush with the UTXOs, [open_db]
    as a whole succeeds there and leaves the database alone. *)
Theorem restart_adopts_flushed_state flag s s0 :
  fst (flush flag s) = Ok tt ->
  reads_back (snd (flush flag s)) = true ->
  let s' := snd (flush flag s) in
  exists s1,
    read_state (set_db (db s') s0) = (Ok tt, s1)
    /\ db s1 = db s'
    /\ db_height s1 = db_height s' /\ db_tx_count s1 = db_tx_count s'
    /\ tip s1 = tip s'
    /\ flush_count s1 = flush_count s'
    /\ utxo_flush_count s1 = utxo_flush_count s'
    /\ wall_time s1 = wall_time s'
    /\ (utxo_flush_count s' = flush_count s' ->
        open_db (Some (db s')) s0 = (Ok tt, s1)).
Proof.
  intros Hok Hback. simpl.
  pose proof (flush_ok_record flag s Hok) as Hrec.
  generalize dependent (snd (flush flag s)). intros s' Hback Hrec.
  apply reads_back_lookups in Hback as (st & Heval & Hst).
  destruct (read_state_adopts (set_db (db s') s0)
              (py_repr (state_dict s')) st
              (db_height s') (db_tx_count s') (tip s') (flush_count s')
              (utxo_flush_count s') (wall_time s'))
    as (s1 & Hread & Hh & Hn & Htip & Hfc & Hufc & Hw & Hdb);
    try (rewrite Hst by (simpl; tauto); reflexivity);
    [by destruct s0 | done |].
  exists s1. repeat split; try done.
  intros Heq. unfold open_db, bind, modify. simpl. rewrite Hread.
  apply delete_excess_history_clean. lia.
Qed.

(** *** A flush writes the history out *)

Lemma KV_commit_cons o ops d :
  KV.commit (o :: ops) d = KV.commit ops (KV.apply o d).
Proof. reflexivity. Qed.

Lemma KV_commit_app ops1 ops2 d :
  KV.commit (ops1 ++ ops2) d = KV.commit ops2 (KV.commit ops1 d).
Proof. unfold KV.commit. apply fold_left_app. Qed.

Lemma history_puts_other flush_id items puts h d :
  history_puts flush_id items = Ok puts ->
  (forall a, ~ In (Some h, a) items) ->
  KV.get (lit "H" ++ h ++ flush_id) (KV.commit puts d)
  = KV.get (lit "H" ++ h ++ flush_id) d.
Proof.
  revert puts d. induction items as [|[[h'|] a'] items IH];
    intros puts d Hputs Hnot; simpl in Hputs.
  - by injection Hputs as <-.
  - destruct (history_puts flush_id items) as [ops|e] eqn:E;
      [|discriminate].
    injection Hputs as <-. rewrite KV_commit_cons. simpl.
    rewrite (IH ops) by (try done; intros a Ha; apply (Hnot a); by right).
    apply KV_get_put_ne. intros Heq.
    injection Heq as Heq. apply app_inv_tail in Heq. subst h'.
    apply (Hnot a'). by left.
  - discriminate.
Qed.

Lemma history_puts_stored flush_id items puts h a d :
  history_puts flush_id items = Ok puts ->
  NoDup (map fst items) ->
  In (Some h, a) items ->
  KV.get (lit "H" ++ h ++ flush_id) (KV.commit puts d)
  = Some (array_tobytes a).
Proof.
  revert puts d. induction items as [|[[h'|] a'] items IH];
    intros puts d Hputs Hnd Hin; simpl in Hputs.
  - destruct Hin.
  - destruct (history_puts flush_id items) as [ops|e] eqn:E;
      [|discriminate].
    injection Hputs as <-. rewrite KV_commit_cons. simpl.
    simpl in Hnd. inversion Hnd as [|? ? Hfresh Hnd']; subst.
    destruct Hin as [Heq|Hin].
    + injection Heq as -> ->.
      rewrite (history_puts_other flush_id items ops h) by
        (try done; intros a0 Ha0; apply Hfresh;
         apply list_elem_of_In, in_map_iff; by exists (Some h, a0)).
      apply KV_get_put_eq.
    + by apply (IH ops).
  - discriminate.
Qed.

Lemma bind_run {S A C} (m : M S A) (k : A -> M S C) s a s1 :
  m s = (Ok a, s1) -> bind m k s = k a s1.
Proof. unfold bind. by intros ->. Qed.

Lemma bind_raise {S A C} (m : M S A) (k : A -> M S C) s e s1 :
  m s = (Raise e, s1) -> bind m k s = (Raise e, s1).
Proof. unfold bind. by intros ->. Qed.

Lemma pack_be16_ok n :
  0 <= n <= 65535 -> pack_be16 n = Ok (be_encode 2 n).
Proof.
  intros Hn. unfold pack_be16, pack.
  by rewrite (proj2 (andb_true_iff _ _))
    by (split; [apply Z.leb_le | apply Z.ltb_lt]; simpl; lia).
Qed.

Lemma pack_be16_overflow n :
  ~ 0 <= n <= 65535 -> pack_be16 n = Raise StructError.
Proof.
  intros Hn. unfold pack_be16, pack.
  destruct (_ && _) eqn:E; [|done].
  apply andb_true_iff in E as [E1 E2].
  apply Z.leb_le in E1. apply Z.ltb_lt in E2. simpl in E2. lia.
Qed.

Lemma history_puts_total flush_id items :
  (forall a, ~ In (None, a) items) ->
  exists puts, history_puts flush_id items = Ok puts.
Proof.
  induction items as [|[[h|] a] items IH]; intros Hnone; simpl.
  - by eexists.
  - destruct IH as [puts ->]; [|by eexists].
    intros a0 Ha0. apply (Hnone a0). by right.
  - destruct (Hnone a). by left.
Qed.

Lemma flush_history_run batch s :
  0 <= flush_count s + 1 <= 65535 ->
  exists puts,
    history_puts (be_encode 2 (flush_count s + 1))
                 (map_to_list (delete None (history s))) = Ok puts
    /\ flush_history batch s
       = (Ok (batch ++ puts),
          set_history_size 0
            (set_history ∅ (set_flush_count (flush_count s + 1) s))).
Proof.
  intros Hn.
  destruct (history_puts_total (be_encode 2 (flush_count s + 1))
              (map_to_list (delete None (history s)))) as [puts Hputs].
  { intros a Ha. apply list_elem_of_In, elem_of_map_to_list in Ha.
    by rewrite lookup_delete_eq in Ha. }
  exists puts. split; [done|].
  unfold flush_history.
  erewrite bind_run by reflexivity.
  erewrite bind_run by reflexivity.
  erewrite bind_run by reflexivity.
  replace (flush_count (set_flush_count _ _)) with (flush_count s + 1)
    by (by destruct s).
  rewrite pack_be16_ok by done.
  erewrite bind_run by reflexivity.
  replace (history (set_flush_count _ _)) with (delete None (history s))
    by (by destruct s).
  rewrite Hputs.
  erewrite bind_run by reflexivity.
  erewrite bind_run by reflexivity.
  erewrite bind_run by reflexivity.
  unfold ret. by destruct s.
Qed.

Lemma flush_history_overflow batch s :
  ~ 0 <= flush_count s + 1 <= 65535 ->
  flush_history batch s
  = (Raise StructError,
     set_flush_count (flush_count s + 1)
       (set_history (delete None (history s)) s)).
Proof.
  intros Hn. unfold flush_history.
  erewrite bind_run by reflexivity.
  erewrite bind_run by reflexivity.
  erewrite bind_run by reflexivity.
  replace (flush_count (set_flush_count _ _)) with (flush_count s + 1)
    by (by destruct s).
  rewrite pack_be16_overflow by done.
  by erewrite bind_raise by reflexivity.
Qed.

(** What a history-only flush does when its flush count fits 16
    bits: the batch of history puts and the state record is
    committed, the record is put again, and only then are the
    statistics computed. *)
Lemma flush_false_run s :
  0 <= flush_count s + 1 <= 65535 ->
  exists puts rec tx_diff last_flush0 sc,
    history_puts (be_encode 2 (flush_count s + 1))
                 (map_to_list (delete None (history s))) = Ok puts
    /\ flush false s = (fst (log_flush_stats tx_diff last_flush0 sc), sc)
    /\ db sc = KV.put (lit "state") (py_repr (state_dict sc))
                 (KV.commit (puts ++ [KV.Put (lit "state") rec]) (db s))
    /\ history sc = ∅ /\ history_size sc = 0
    /\ flush_count sc = flush_count s + 1
    /\ utxo_flush_count sc = utxo_flush_count s.
Proof.
  intros Hn. unfold flush.
  erewrite bind_run by reflexivity.
  erewrite bind_run by reflexivity.
  erewrite bind_run by reflexivity.
  erewrite bind_run by reflexivity.
  match goal with
  | |- context [bind (write_batch _) _ ?x] => set (s4 := x)
  end.
  assert (flush_count s4 = flush_count s /\ history s4 = history s
          /\ db s4 = db s /\ utxo_flush_count s4 = utxo_flush_count s)
    as (Hfc4 & Hh4 & Hdb4 & Hufc4) by (by destruct s).
  destruct (flush_history_run [] s4) as (puts & Hputs & Hrun);
    [by rewrite Hfc4|].
  rewrite Hfc4, Hh4 in Hputs. rewrite Hfc4 in Hrun.
  set (s5 := set_history_size 0
               (set_history ∅ (set_flush_count (flush_count s + 1) s4)))
    in Hrun.
  destruct (flush_state_record s5) as [r sr] eqn:Hrec.
  assert (exists rec, r = Ok rec) as [rec ->].
  { unfold flush_state_record, bind, time_time, modify, gets in Hrec.
    simpl in Hrec. injection Hrec as <- _. by eexists. }
  assert (history sr = ∅ /\ history_size sr = 0 /\ db sr = db s
          /\ flush_count sr = flush_count s + 1
          /\ utxo_flush_count sr = utxo_flush_count s)
    as (Hhr & Hsr & Hdbr & Hfcr & Hufcr).
  { refine (stable_run
              (fun x => history x = ∅ /\ history_size x = 0
                        /\ db x = db s
                        /\ flush_count x = flush_count s + 1
                        /\ utxo_flush_count x = utxo_flush_count s)
              flush_state_record s5 (Ok rec) sr _ Hrec _);
      [stable_go|].
    subst s5. by destruct s4. }
  erewrite (bind_run (write_batch _)); cycle 1.
  { unfold write_batch. erewrite bind_run by exact Hrun.
    erewrite bind_run by reflexivity.
    unfold flush_state. erewrite bind_run by exact Hrec.
    reflexivity. }
  match goal with
  | |- context [bind flush_state_db _ ?x] =>
      destruct (flush_state_db_run x) as (sc & Hsc & Hput & Hf & Hu);
      erewrite (bind_run flush_state_db) by exact Hsc
  end.
  match goal with
  | |- context [log_flush_stats ?d ?l sc] =>
      exists puts, rec, d, l, sc;
      pose proof (log_flush_stats_state d l sc) as Hlog
  end.
  split; [done|].
  split; [destruct (log_flush_stats _ _ sc); simpl in *; by subst|].
  clear Hlog.
  assert (history sc = ∅ /\ history_size sc = 0) as [He Hs].
  { refine (stable_run (fun x => history x = ∅ /\ history_size x = 0)
              flush_state_db _ (Ok tt) sc _ Hsc _);
      [stable_go | by destruct sr]. }
  repeat split; try done.
  - rewrite Hput. f_equal. replace (db (set_db _ sr))
      with (KV.commit (([] ++ puts) ++ [KV.Put (lit "state") rec]) (db sr))
      by (by destruct sr).
    by rewrite Hdbr.
  - rewrite Hf. by destruct sr.
  - rewrite Hu. by destruct sr.
Qed.

(** X13: a history-only flush whose flush count fits 16 bits always
    commits: for every address id that had an array in the history
    map, the array's bytes are in the database under the key
    [H ‖ hash168 ‖ flush_id] of the new flush count, the state
    record there is that of the processor, and the history map is
    empty with [history_size] 0.  This is so however the call ends:
    the statistics it logs last assign nothing, so an exception
    raised while they are computed comes after the commit. *)
Theorem history_flush_stores_arrays s hash168 a :
  0 <= flush_count s + 1 <= 65535 ->
  history s !! Some hash168 = Some a ->
  let s' := snd (flush false s) in
  KV.get (history_key hash168 (flush_count s + 1)) (db s')
  = Some (array_tobytes a)
  /\ KV.get (lit "state") (db s') = Some (py_repr (state_dict s'))
  /\ history s' = ∅ /\ history_size s' = 0
  /\ flush_count s' = flush_count s + 1.
Proof.
  intros Hn Ha. simpl.
  destruct (flush_false_run s Hn)
    as (puts & rec & tx_diff & lf & sc & Hputs & -> & Hdb & He & Hs
        & Hfc & _).
  simpl. repeat split; try done.
  - rewrite Hdb.
    assert (history_key hash168 (flush_count s + 1) <> lit "state") as Hne
      by discriminate.
    rewrite KV_get_put_ne by done.
    rewrite KV_commit_app. simpl. rewrite KV_get_put_ne by done.
    unfold history_key.
    apply (history_puts_stored _ _ puts hash168 a _ Hputs).
    + apply NoDup_fst_map_to_list.
    + apply list_elem_of_In, elem_of_map_to_list.
      by rewrite lookup_delete_ne by done.
  - rewrite Hdb. apply KV_get_put_eq.
Qed.

(** X18: flush ids do not wrap: when the incremented flush count
    does not fit 16 bits, [flush], with or without the UTXOs, raises
    [struct.error] from [flush_history] and writes nothing: the
    database and [utxo_flush_count] are as before and the history
    arrays are still in memory, but [flush_count] has been
    incremented all the same. *)
Theorem flush_count_overflow flag s :
  ~ 0 <= flush_count s + 1 <= 65535 ->
  let r := flush flag s in
  fst r = Raise StructError
  /\ db (snd r) = db s
  /\ utxo_flush_count (snd r) = utxo_flush_count s
  /\ history (snd r) = delete None (history s)
  /\ history_size (snd r) = history_size s
  /\ flush_count (snd r) = flush_count s + 1.
Proof.
  intros Hn. simpl. unfold flush.
  erewrite bind_run by reflexivity.
  erewrite bind_run by reflexivity.
  erewrite bind_run by reflexivity.
  erewrite bind_run by reflexivity.
  erewrite bind_raise; cycle 1.
  { unfold write_batch. erewrite bind_raise; [reflexivity|].
    apply flush_history_overflow. by destruct s. }
  simpl. by destruct s.
Qed.

(** *** History arrays *)

Lemma le_decode_encode w z :
  0 <= z < 256 ^ Z.of_nat w -> le_decode (le_encode w z) = z.
Proof.
  revert z. induction w as [|w IH]; intros z Hz.
  - simpl in *. lia.
  - change (le_decode (le_encode (S w) z))
      with (Z_of_byte (byte_of_Z z) + 256 * le_decode (le_encode w (z / 256))).
    rewrite Z_of_byte_of_Z.
    rewrite Nat2Z.inj_succ, Z.pow_succ_r in Hz by lia.
    rewrite IH.
    + pose proof (Z.div_mod z 256 ltac:(lia)). lia.
    + split; [apply Z.div_pos; lia | apply Z.div_lt_upper_bound; lia].
Qed.

Lemma length_le_encode w z : length (le_encode w z) = w.
Proof. revert z. induction w as [|w IH]; intros z; simpl; [done|by rewrite IH]. Qed.

Lemma length_array_tobytes a :
  length (array_tobytes a) = (4 * length a)%nat.
Proof.
  unfold array_tobytes. induction a as [|x a IH]; [done|].
  cbn [map concat length]. rewrite length_app, length_le_encode, IH. lia.
Qed.

Lemma array_items_roundtrip a :
  array_ok a ->
  map (fun n => le_decode (slice (array_tobytes a) n (n + 4)))
      (map (Nat.mul 4) (seq 0 (length a))) = a.
Proof.
  induction 1 as [|x a Hx Ha IH]; [done|].
  cbn [length]. rewrite <- cons_seq, <- seq_shift, !map_cons, !map_map.
  f_equal.
  - unfold slice, array_tobytes. cbn [map concat skipn].
    rewrite Nat.mul_0_r. cbn [Nat.add Nat.sub]. rewrite skipn_O.
    rewrite firstn_app, length_le_encode, Nat.sub_diag, firstn_O, app_nil_r.
    rewrite firstn_all2 by (rewrite length_le_encode; lia).
    apply le_decode_encode. unfold array_I_max in Hx. simpl. lia.
  - rewrite <- IH at 2. rewrite map_map. apply map_ext. intros k.
    unfold slice, array_tobytes. cbn [map concat].
    replace (4 * S k)%nat with (length (le_encode 4 x) + 4 * k)%nat
      by (rewrite length_le_encode; lia).
    rewrite skipn_app, skipn_all2 by lia. cbn [app].
    by replace (length (le_encode 4 x) + 4 * k - length (le_encode 4 x))%nat
      with (4 * k)%nat by lia.
Qed.

Lemma array_roundtrip a :
  array_ok a -> array_frombytes (array_tobytes a) = Ok a.
Proof.
  intros Ha. unfold array_frombytes, range_step.
  rewrite length_array_tobytes.
  replace ((4 * length a) mod 4)%nat with 0%nat
    by (symmetry; rewrite Nat.mul_comm; apply Nat.Div0.mod_mul).
  simpl Nat.eqb. cbv iota.
  replace ((4 * length a + 4 - 1) / 4)%nat with (length a).
  - by rewrite array_items_roundtrip.
  - apply Nat.div_unique with (r := 3%nat); lia.
Qed.

Lemma arrays_ok_set_history v s :
  map_Forall (fun _ a => array_ok a) v ->
  history_arrays_ok (set_history v s).
Proof. by destruct s. Qed.

Lemma stable_history_append_arrays hash168 tx_num :
  stable history_arrays_ok (history_append hash168 tx_num).
Proof.
  intros s Hs. unfold history_append.
  assert (array_ok (default [] (history s !! hash168))) as Ha.
  { destruct (history s !! hash168) as [a|] eqn:E; simpl.
    - by apply (Hs hash168).
    - constructor. }
  unfold array_append.
  destruct (_ && _) eqn:E; simpl; apply arrays_ok_set_history,
    map_Forall_insert_2; try done.
  apply Forall_app. split; [done|]. constructor; [|constructor].
  apply andb_true_iff in E as [E1 E2].
  apply Z.leb_le in E1, E2. lia.
Qed.

Ltac arrays_tac :=
  first
    [ apply stable_history_append_arrays
    | apply stable_modify; intros ? ?; cbv beta;
      apply arrays_ok_set_history;
      first [ apply map_Forall_empty
            | apply map_Forall_delete; assumption ] ].

Lemma flush_keeps_history_arrays_ok flag :
  stable history_arrays_ok (flush flag).
Proof. stable_go_with arrays_tac. Qed.

Lemma process_block_keeps_history_arrays_ok block :
  stable history_arrays_ok (process_block block).
Proof. stable_go_with arrays_tac. Qed.

Lemma reachable_history_arrays_ok s :
  reachable s -> history_arrays_ok s.
Proof.
  induction 1 as [disk hs ths cs Hinit | block s _ IH | flag s _ IH].
  - unfold init.
    match goal with
    | |- history_arrays_ok (snd (?m ?s0)) =>
        assert (stable history_arrays_ok m) as Hm by stable_go;
        apply (Hm s0)
    end.
    apply map_Forall_empty.
  - by apply process_block_keeps_history_arrays_ok.
  - by apply flush_keeps_history_arrays_ok.
Qed.

(** X14: whatever blocks a processor has been given, every history
    array it holds in memory consists of items that fit the array's
    unsigned 32-bit type, so the bytes [flush_history] writes for it
    decode, by [array.frombytes] as [get_history] does it, to the
    same array. *)
Theorem history_arrays_read_back s hash168 a :
  reachable s ->
  history s !! hash168 = Some a ->
  array_ok a /\ array_frombytes (array_tobytes a) = Ok a.
Proof.
  intros Hr Ha. apply reachable_history_arrays_ok in Hr.
  assert (array_ok a) as Hok by (by apply (Hr hash168)).
  split; [done | by apply array_roundtrip].
Qed.

(** *** What the database lags behind *)

Lemma flush_keeps_db_counts_behind flag :
  stable db_counts_behind (flush flag).
Proof. unfold db_counts_behind. stable_go. Qed.

Lemma process_block_keeps_db_counts_behind block :
  stable db_counts_behind (process_block block).
Proof. unfold db_counts_behind. stable_go. Qed.

Lemma init_db_counts_level disk hs ths cs s :
  init disk hs ths cs = (Ok tt, s) ->
  height s = db_height s /\ tx_count s = db_tx_count s.
Proof.
  unfold init. intros H.
  apply bind_ok in H as ([] & s1 & _ & H).
  unfold bind, modify in H. simpl in H. injection H as <-.
  by destruct s1.
Qed.

(** X17: the counts recorded for the database never run ahead of the
    processor's own: in every state of a processor that was
    constructed successfully, whatever blocks it has processed and
    flushes it has made, completed or not, [db_height <= height] and
    [db_tx_count <= tx_count]; right after construction they are
    equal. *)
Theorem db_counts_never_ahead s :
  reachable s ->
  db_height s <= height s /\ db_tx_count s <= tx_count s.
Proof.
  induction 1 as [disk hs ths cs Hinit | block s _ IH | flag s _ IH].
  - apply run_ok_tt, init_db_counts_level in Hinit. lia.
  - by apply (process_block_keeps_db_counts_behind block s).
  - by apply (flush_keeps_db_counts_behind flag s).
Qed.

(** *** process_block *)

Lemma snd_bind_to {A C} (Q R : t -> Prop) (m : M t A) (k : A -> M t C) s :
  Q s -> stable Q m ->
  (forall s1, Q s1 -> R s1) ->
  (forall a s1, Q s1 -> R (snd (k a s1))) ->
  R (snd (bind m k s)).
Proof.
  intros HQ Hm Hraise Hk. specialize (Hm s HQ). unfold bind.
  destruct (m s) as [[a|e] s1]; simpl in *; [by apply Hk | by apply Hraise].
Qed.

(** X15: between cache checks a block is applied in memory only:
    when the clock has not passed [next_cache_check], [process_block],
    however it ends, leaves the database, both flush counters,
    [db_height], [db_tx_count] and [next_cache_check] as they were;
    it makes one clock reading. *)
Theorem process_block_between_cache_checks block s :
  clock (ticks s) <= next_cache_check s ->
  let s' := snd (process_block block s) in
  db s' = db s
  /\ flush_count s' = flush_count s
  /\ utxo_flush_count s' = utxo_flush_count s
  /\ db_height s' = db_height s
  /\ db_tx_count s' = db_tx_count s
  /\ next_cache_check s' = next_cache_check s
  /\ (ticks s' <= S (ticks s))%nat.
Proof.
  intros Hclock. simpl.
  set (Q0 := fun x : t =>
    db x = db s /\ flush_count x = flush_count s
    /\ utxo_flush_count x = utxo_flush_count s
    /\ db_height x = db_height s /\ db_tx_count x = db_tx_count s
    /\ next_cache_check x = next_cache_check s
    /\ (ticks x <= S (ticks s))%nat).
  set (Q1 := fun x : t =>
    db x = db s /\ flush_count x = flush_count s
    /\ utxo_flush_count x = utxo_flush_count s
    /\ db_height x = db_height s /\ db_tx_count x = db_tx_count s
    /\ next_cache_check x = next_cache_check s
    /\ ticks x = ticks s).
  assert (forall x, Q1 x -> Q0 x) as Hweak.
  { unfold Q0, Q1. intros x (? & ? & ? & ? & ? & ? & Ht).
    repeat split; try done. lia. }
  change (Q0 (snd (process_block block s))).
  unfold process_block.
  apply (snd_bind_to Q1 Q0); [by unfold Q1 | unfold Q1; stable_go | done |].
  intros [[header tx_hashes] txs] s1 H1.
  apply (snd_bind_to Q1 Q0); [done | unfold Q1; stable_go | done |].
  intros [prev_hash header_hash] s2 H2.
  apply (snd_bind_to Q1 Q0); [done | unfold Q1; stable_go | done |].
  intros sx s3 H3.
  destruct (bool_decide _); [by apply Hweak|].
  apply (snd_bind_to Q1 Q0); [done | unfold Q1; stable_go | done |].
  intros [] s4 H4.
  apply (snd_bind_to Q1 Q0); [done | unfold Q1; stable_go | done |].
  intros [] s5 H5.
  apply (snd_bind_to Q1 Q0); [done | unfold Q1; stable_go | done |].
  intros [] s6 H6.
  unfold bind, time_time, get. simpl.
  destruct H6 as (Hdb & Hfc & Hufc & Hdh & Hdt & Hncc & Ht).
  replace (next_cache_check (set_ticks (S (ticks s6)) s6))
    with (next_cache_check s6) by (by destruct s6).
  rewrite Ht, Hncc.
  rewrite Z.gtb_ltb.
  destruct (_ <? _) eqn:E; [apply Z.ltb_lt in E; lia|].
  simpl. unfold Q0. destruct s6; simpl in *. repeat split; first [done | lia].
Qed.

(** X16: a block is accepted only on top of the tip: when
    [process_block] returns, the block parsed, the previous hash in
    its header was the tip, the tip is now the header's own hash and
    the height is one more. *)
Theorem process_block_extends_tip block s :
  fst (process_block block s) = Ok tt ->
  exists header tx_hashes txs header_hash,
    read_block block = Ok (header, tx_hashes, txs)
    /\ header_hashes header = Ok (tip s, header_hash)
    /\ tip (snd (process_block block s)) = header_hash
    /\ height (snd (process_block block s)) = height s + 1.
Proof.
  intros H. apply run_ok_tt in H.
  pose proof (process_block_height block s _ H) as Hheight.
  generalize dependent (snd (process_block block s)). intros s' H Hheight.
  unfold process_block in H.
  apply bind_ok in H as ([[header tx_hashes] txs] & s1 & H1 & H).
  assert (read_block block = Ok (header, tx_hashes, txs) /\ tip s1 = tip s)
    as [Hread Htip1].
  { unfold on_fs_cache, FSCache.process_block, bind, lift, modify, ret
      in H1.
    destruct (read_block block) as [[[hd hs] ts]|e]; simpl in H1;
      [|discriminate].
    injection H1 as <- <- <- <-. by destruct s. }
  apply bind_ok in H as ([prev_hash header_hash] & s2 & H2 & H).
  unfold lift in H2.
  destruct (header_hashes header) as [[p hh]|e] eqn:Hhh; [|discriminate].
  injection H2 as -> -> <-.
  apply bind_ok in H as (sx & s3 & H3 & H). injection H3 as <- <-.
  destruct (bool_decide _) eqn:Eprev; [discriminate|].
  apply bool_decide_eq_false in Eprev.
  assert (prev_hash = tip s1) as -> by (by apply dec_stable).
  exists header, tx_hashes, txs, header_hash.
  rewrite <- Htip1. repeat split; try done.
  apply bind_ok in H as ([] & s4 & H4 & H). injection H4 as <-.
  refine (stable_run (fun x => tip x = header_hash) _ _ (Ok tt) s' _ H _);
    [stable_go | by destruct s1].
Qed.

(** *** The processing loop *)

Lemma for_each_app {A} (xs ys : list A) (body : A -> M t unit) s :
  for_each (xs ++ ys) body s
  = bind (for_each xs body) (fun _ => for_each ys body) s.
Proof.
  revert s. induction xs as [|x xs IH]; intros s; simpl.
  - reflexivity.
  - unfold bind. destruct (body x s) as [[[]|e] s1]; [|done].
    rewrite IH. reflexivity.
Qed.

Lemma process_blocks_app xs ys s s1 :
  process_blocks xs s = (Ok tt, s1) ->
  process_blocks (xs ++ ys) s = process_blocks ys s1.
Proof.
  intros H. unfold process_blocks in *. rewrite for_each_app.
  unfold bind. by rewrite H.
Qed.

Lemma start_loop_ok batches s s' :
  start_loop batches s = (Ok tt, s') ->
  process_blocks (concat batches) s = (Ok tt, s')
  /\ forall done_ rest,
       batches = done_ ++ rest -> done_ <> [] ->
       let s1 := snd (process_blocks (concat done_) s) in
       Some (height s1) <> cached_height (ticks s1).
Proof.
  revert s. induction batches as [|blocks batches IH]; intros s H.
  - injection H as <-. split; [done|].
    intros [|? ?] rest Heq Hne; [done | discriminate].
  - simpl in H. apply bind_ok in H as ([] & s1 & H1 & H).
    apply bind_ok in H as (sx & s2 & H2 & H). injection H2 as <- <-.
    destruct (bool_decide _) eqn:E; [discriminate|].
    apply bool_decide_eq_false in E.
    apply IH in H as [Hall Hnever]. split.
    + simpl. by rewrite (process_blocks_app _ _ _ _ H1).
    + intros [|b done_] rest Heq Hne; [done|].
      injection Heq as <- ->. simpl.
      rewrite (process_blocks_app _ _ _ _ H1).
      destruct done_ as [|b' done_].
      * done.
      * by apply (Hnever (b' :: done_) rest).
Qed.

(** X19: [start] stops at the first batch that brings the processor
    level with the daemon: building the 'caught up' message raises
    [NameError] for the undefined name [self_height], the
    [flush(True)] that follows in the loop is not reached and no
    later batch is processed; the [finally] clause then makes the
    flush with the UTXOs, and the call ends with the [NameError], or
    with the exception of that flush if it raises. *)
Theorem start_stops_when_caught_up blocks rest s :
  fst (process_blocks blocks s) = Ok tt ->
  Some (height (snd (process_blocks blocks s)))
  = cached_height (ticks (snd (process_blocks blocks s))) ->
  let s1 := snd (process_blocks blocks s) in
  start (blocks :: rest) s
  = (match fst (flush true s1) with
     | Ok _ => Raise (NameError "self_height")
     | Raise e => Raise e
     end, snd (flush true s1)).
Proof.
  intros Hok Hlevel. simpl. apply run_ok_tt in Hok.
  generalize dependent (snd (process_blocks blocks s)). intros s1 Hok Hlevel.
  unfold start. simpl start_loop. unfold process_blocks in Hok.
  erewrite bind_run by exact Hok.
  erewrite bind_run by reflexivity.
  rewrite bool_decide_true by done.
  erewrite bind_raise by reflexivity.
  rewrite <- Hlevel.
  by destruct (flush true s1) as [[[]|e] s2].
Qed.

(** X20: while [start] goes on without an exception it has never
    been level with the daemon: if it has taken the batches it was
    handed and is waiting for the next, then it has applied their
    blocks in order, as one [process_block] after the other, and
    after none of the batches was its height the daemon's. *)
Theorem start_goes_on_only_behind batches s :
  fst (start batches s) = Ok tt ->
  start batches s = process_blocks (concat batches) s
  /\ forall done_ rest,
       batches = done_ ++ rest -> done_ <> [] ->
       let s1 := snd (process_blocks (concat done_) s) in
       Some (height s1) <> cached_height (ticks s1).
Proof.
  intros H. unfold start in *.
  destruct (start_loop batches s) as [[[]|e] s'] eqn:Hloop.
  - apply start_loop_ok in Hloop as [Hall Hnever]. by rewrite Hall.
  - destruct (cached_height (ticks s')); [|discriminate].
    by destruct (flush true s') as [[[]|e'] s''].
Qed.

(** *** Queries *)

Lemma history_array_loop_bound s limit a :
  0 <= limit ->
  len (fst (history_array_loop s limit a)) <= limit
  /\ match snd (history_array_loop s limit a) with
     | Next limit' => 0 <= limit'
                      /\ limit' = limit - len (fst (history_array_loop s limit a))
     | _ => True
     end.
Proof.
  revert limit. induction a as [|tx_num a IH]; intros limit Hl; simpl.
  - unfold len. simpl. lia.
  - destruct (limit =? 0) eqn:E0; [unfold len; simpl; lia|].
    apply Z.eqb_neq in E0.
    destruct (FSCache.get_tx_hash _ _) as [y|e]; [|unfold len; simpl; lia].
    specialize (IH (limit - 1) ltac:(lia)).
    destruct (history_array_loop s (limit - 1) a) as [ys f].
    unfold len in *. simpl in *. destruct f; lia.
Qed.

Lemma history_loop_bound s limit entries :
  0 <= limit ->
  len (fst (history_loop s limit entries)) <= limit.
Proof.
  revert limit. induction entries as [|[key hist] entries IH];
    intros limit Hl; simpl.
  - unfold len. simpl. lia.
  - destruct (array_frombytes hist) as [a|e]; [|unfold len; simpl; lia].
    pose proof (history_array_loop_bound s limit a Hl) as [Hb Hf].
    destruct (history_array_loop s limit a) as [ys f]. simpl in *.
    destruct f as [limit'| |e]; try done.
    destruct Hf as [Hpos ->].
    specialize (IH _ Hpos).
    destruct (history_loop s _ entries) as [zs f]. simpl in *.
    unfold len in *. rewrite length_app. lia.
Qed.

(** X22: [get_history] never yields more entries than the limit it
    is given, whatever the database holds and however the generator
    ends, by exhaustion, by [return] or with an exception part of the
    way. *)
Theorem get_history_at_most_limit s hash168 n :
  0 <= n ->
  len (fst (get_history s hash168 (PyInt n))) <= n.
Proof.
  intros Hn. unfold get_history, resolve_limit.
  rewrite (proj2 (Z.geb_le n 0)) by lia.
  pose proof (history_loop_bound s n
                (KV.iterator (lit "H" ++ hash168) (db s)) Hn) as Hb.
  by destruct (history_loop s n _) as [ys f].
Qed.

(** X23: [get_balance] cannot report a balance: [get_utxos] never
    gets to yield an entry, since building one calls the undefined
    name [UTXO], so the sum is over nothing.  The call returns 0, or
    raises what [get_utxos] raised. *)
Theorem get_balance_zero_or_raises s hash168 :
  get_balance s hash168 = Ok 0
  \/ exists e, get_balance s hash168 = Raise e.
Proof.
  unfold get_balance.
  pose proof (get_utxos_yields_nothing s hash168 PyNone) as Hnil.
  destruct (get_utxos s hash168 PyNone) as [ys [[]|e]];
    simpl in Hnil; subst ys; eauto.
Qed.

(** *** A transaction that fails *)

Lemma for_each_history_append_ok l tx_num s :
  0 <= tx_num <= array_I_max ->
  fst (for_each l (fun hash168 => history_append hash168 tx_num) s) = Ok tt.
Proof.
  intros Hrange. revert s. induction l as [|x l IH]; intros s; simpl.
  - done.
  - unfold bind. rewrite history_append_ok by done. apply IH.
Qed.

(** X24: a transaction that fails to apply leaves no trace in the
    history: with [tx_count] within the range of the history arrays'
    items, a [process_tx] that raises has done so in the UTXO cache,
    before the history was touched; the history map, [history_size]
    and [tx_count] are as before, and so is everything but the UTXO
    cache. *)
Theorem process_tx_failure_leaves_history tx_hash tx s e :
  0 <= tx_count s <= array_I_max ->
  fst (process_tx tx_hash tx s) = Raise e ->
  exists c, snd (process_tx tx_hash tx s) = set_utxo_cache c s.
Proof.
  intros Hrange H.
  destruct (process_tx tx_hash tx s) as [r s'] eqn:Hrun.
  simpl in *. subst r. unfold process_tx in Hrun.
  erewrite bind_run in Hrun by reflexivity.
  unfold bind at 1 in Hrun. unfold on_utxo_cache at 1 in Hrun.
  destruct (utxo_add_many _ _ _ _ _ _) as [[outs|e1] c1];
    [|injection Hrun as _ <-; by exists c1].
  assert (exists aids c2,
            (if is_coinbase tx then ret outs
             else spend_inputs (inputs tx) outs) (set_utxo_cache c1 s)
            = (Ok aids, set_utxo_cache c2 s)
          \/ (if is_coinbase tx then ret outs
              else spend_inputs (inputs tx) outs) (set_utxo_cache c1 s)
             = (Raise e, set_utxo_cache c2 s) /\ s' = set_utxo_cache c2 s)
    as (aids & c2 & [Hok | [Hraise ->]]).
  { unfold bind at 1 in Hrun. destruct (is_coinbase tx).
    - exists outs, c1. by left.
    - rewrite spend_inputs_run in Hrun |- *.
      replace (utxo_cache (set_utxo_cache c1 s)) with c1 in *
        by (by destruct s).
      destruct (spend_all _ _ _ _ _) as [[aids|e2] c2].
      + exists aids, c2. left. by destruct s.
      + exists ∅, c2. right. injection Hrun as <- <-. by destruct s. }
  - erewrite bind_run in Hrun by exact Hok.
    pose proof (for_each_history_append_ok (elements aids) (tx_count s)
                  (set_utxo_cache c2 s) Hrange) as Hfe.
    unfold bind at 1 in Hrun.
    destruct (for_each _ _ _) as [[[]|e3] s3]; discriminate.
  - by exists c2.
Qed.

End StateProofs.

(** ** The theorems on the test run *)

Import BlockProcessor Scenario.
#[local] Existing Instance W.

Lemma Toy_well_parsed genesis block :
  @well_parsed (Toy.world genesis) block.
Proof.
  intros header tx_hashes txs. simpl. unfold Toy.parse_block.
  destruct (Nat.ltb _ _); [discriminate|].
  destruct (Toy.read_txs _) as [pairs|e]; [|discriminate].
  intros [= _ <- <-]. by rewrite !length_map.
Qed.

Example scenario_runs :
  fst (@process_block W block0 fresh) = Ok tt
  /\ fst (@process_block W block1 after0) = Ok tt
  /\ fst (@flush W false after1) = Ok tt
  /\ (height after1, tx_count after1, history_size after1) = (1, 2, 3)
  /\ map_to_list (history after1)
     = [(Some [x42], [1]); (Some [x41], [0; 1])]
  /\ KV.keys (db crashed)
     = [lit "HA" ++ [x00; x01]; lit "HB" ++ [x00; x01]; lit "state"]
  /\ (flush_count crashed, utxo_flush_count crashed) = (1, 0)
  /\ (flush_count restarted, utxo_flush_count restarted) = (1, 0).
Proof. vm_compute. repeat split. Qed.

(** C1, the claim as stated fails: the processor restarted on the
    database of the crash has [flush_count = 1 > utxo_flush_count = 0];
    recovery returns, and [flush_count] is still 1, not the 0 that
    [utxo_flush_count] was; it is [utxo_flush_count] that is now 1. *)
Lemma recovery_does_not_lower_flush_count :
  flush_count restarted > utxo_flush_count restarted
  /\ fst (@delete_excess_history W restarted) = Ok tt
  /\ flush_count (snd (@delete_excess_history W restarted))
     <> utxo_flush_count restarted
  /\ utxo_flush_count (snd (@delete_excess_history W restarted)) = 1
  /\ KV.keys (db (snd (@delete_excess_history W restarted)))
     = [lit "state"].
Proof. vm_compute. repeat split. discriminate. Qed.

(** The same through [__init__] on the database of the crash. *)
Example restart_in_scenario :
  let r := @init W (Some (db crashed)) [] [] [] in
  fst r = Ok tt
  /\ (flush_count (snd r), utxo_flush_count (snd r)) = (1, 1)
  /\ KV.keys (db (snd r)) = [lit "state"].
Proof. vm_compute. repeat split. Qed.

Lemma recovery_deletes_excess_history_witness :
  exists s',
    @delete_excess_history W restarted = (Ok tt, s')
    /\ (forall k,
          KV.get k (db s')
          = if bool_decide (k = lit "state")
            then Some (py_repr (state_dict s'))
            else if is_excess (utxo_flush_count restarted) k then None
            else KV.get k (db restarted))
    /\ utxo_flush_count s' = flush_count restarted
    /\ flush_count s' = flush_count restarted.
Proof.
  apply (@recovery_deletes_excess_history W restarted).
  - vm_compute. reflexivity.
  - vm_compute. reflexivity.
Defined.

(** C2, the claim as stated fails: on a block that does not extend
    the tip [process_block] raises the [ChainError], and the
    flat-file cache is no longer what it was. *)
Lemma process_block_reorg_changes_fs_cache :
  fst (@process_block W stray fresh)
  = Raise (ChainError (PrevHashMismatch (Toy.hash_of x07) (tip fresh)))
  /\ fs_cache (snd (@process_block W stray fresh)) <> fs_cache fresh.
Proof. vm_compute. split; [reflexivity | discriminate]. Qed.

Lemma process_block_reorg_leaves_all_but_fs_cache_witness :
  exists s',
    @process_block W stray fresh
    = (Raise (ChainError (PrevHashMismatch (Toy.hash_of x07) (tip fresh))),
       s')
    /\ height s' = height fresh /\ tx_count s' = tx_count fresh
    /\ tip s' = tip fresh /\ utxo_cache s' = utxo_cache fresh
    /\ history s' = history fresh
    /\ history_size s' = history_size fresh
    /\ db s' = db fresh
    /\ FSCache.headers (fs_cache s')
       = FSCache.headers (fs_cache fresh) ++ [firstn 64 stray]
    /\ FSCache.tx_hashes (fs_cache s')
       = FSCache.tx_hashes (fs_cache fresh) ++ [].
Proof.
  apply (@process_block_reorg_leaves_all_but_fs_cache W fresh stray
           (firstn 64 stray) [] [] (Toy.hash_of x07) (Toy.hash_of x02)).
  - vm_compute. reflexivity.
  - vm_compute. reflexivity.
  - vm_compute. discriminate.
Defined.

(** C3: a database created for another chain, opened by a processor
    of this one.  [read_state] finds the genesis hashes different and
    fails, but with [KeyError('genesis_hash')] raised while the
    message of the [ChainError] is being built; the chain state is
    still the initial one. *)
Theorem wrong_chain_open_raises_KeyError :
  let r := @init W (Some other_chain_db) [] [] [] in
  fst r = Raise (KeyError "genesis_hash")
  /\ (db_height (snd r), db_tx_count (snd r), tip (snd r),
      flush_count (snd r), utxo_flush_count (snd r), wall_time (snd r))
     = (-1, 0, Toy.zeros, 0, 0, 0).
Proof. vm_compute. split; reflexivity. Qed.

Lemma process_tx_outputs_then_inputs_witness :
  exists s',
    @process_tx W [x0b] tx1 after0 = (Ok tt, s')
    /\ utxo_cache s' = [([x0b], 0, Some [x42])]
    /\ history s' !! Some [x41] = Some [0; 1]
    /\ history s' !! Some [x42] = Some [1]
    /\ history_size s' = 3 /\ tx_count s' = 2.
Proof.
  destruct (@process_tx_outputs_then_inputs W [x0b] tx1 after0
              (value_or ∅ (fst added)) (snd added)
              (value_or ∅ (fst spent)) (snd spent))
    as (s' & Hrun & Hc & Hh & Hs & Ht & _).
  - apply (run_ok added ∅). vm_compute. reflexivity.
  - apply (run_ok spent ∅). vm_compute. reflexivity.
  - vm_compute. split; discriminate.
  - exists s'. split; [exact Hrun|].
    split; [rewrite Hc; vm_compute; reflexivity|].
    split; [rewrite (Hh (Some [x41])); vm_compute; reflexivity|].
    split; [rewrite (Hh (Some [x42])); vm_compute; reflexivity|].
    split; [rewrite Hs | rewrite Ht]; vm_compute; reflexivity.
Defined.

Lemma counts_after_processed_blocks_witness :
  tx_count (snd (@process_blocks W [block0; block1] fresh))
  = sum (map block_tx_count [block0; block1])
  /\ height (snd (@process_blocks W [block0; block1] fresh))
     = len [block0; block1] - 1.
Proof.
  apply (@counts_after_processed_blocks W [block0; block1] fresh).
  - vm_compute. reflexivity.
  - vm_compute. reflexivity.
  - repeat constructor; apply Toy_well_parsed.
  - vm_compute. reflexivity.
Defined.

Example counts_in_scenario :
  sum (map block_tx_count [block0; block1]) = 2
  /\ tx_count (snd (@process_blocks W [block0; block1] fresh)) = 2
  /\ height (snd (@process_blocks W [block0; block1] fresh)) = 1.
Proof. vm_compute. repeat split. Qed.

(** C7: [get_utxos] on a database that holds one unspent output of
    [A], a 12-byte record whose transaction ordinal resolves.  With
    [limit = 1] and with [limit = None] alike the generator yields
    nothing and ends with [NameError]: the name [UTXO] it calls to
    build the entry is not defined. *)
Theorem get_utxos_raises_NameError :
  KV.iterator (lit "u" ++ [x41]) (db with_utxo) = [(utxo_key, utxo_record)]
  /\ length utxo_record = 12%nat
  /\ FSCache.get_tx_hash (fs_cache with_utxo) 0 = Ok ([x0a], 0)
  /\ @get_utxos W with_utxo [x41] (PyInt 1)
     = ([], Raise (NameError "UTXO"))
  /\ @get_utxos W with_utxo [x41] PyNone
     = ([], Raise (NameError "UTXO")).
Proof. vm_compute. repeat split. Qed.

Example get_history_in_scenario :
  @get_history W crashed [x41] (PyInt 1) = ([([x0a], 0)], Ok tt)
  /\ @get_history W crashed [x41] (PyInt 5)
     = ([([x0a], 0); ([x0b], 1)], Ok tt)
  /\ @get_history W crashed [x41] PyNone
     = ([([x0a], 0); ([x0b], 1)], Ok tt)
  /\ @get_history W crashed [x41] (PyInt 0) = ([], Ok tt).
Proof. vm_compute. repeat split. Qed.

Lemma corrupt_flush_counts_rejected_and_order_kept_witness :
  @delete_excess_history W corrupt
  = (Raise (ChainError FlushCountCorrupt), corrupt)
  /\ flush_count crashed >= utxo_flush_count crashed
  /\ stored_counts_ok (db crashed).
Proof.
  split.
  - apply (proj1 (@corrupt_flush_counts_rejected_and_order_kept W corrupt)).
    vm_compute. reflexivity.
  - apply (proj2 (@corrupt_flush_counts_rejected_and_order_kept W crashed)).
    apply reach_flush, reach_process_block, reach_process_block.
    apply (@reach_init W None [] [] []). vm_compute. reflexivity.
Defined.

Lemma flush_assigns_utxo_fields_only_with_utxos_witness :
  (flush_count crashed = flush_count after1 + 1
   /\ utxo_flush_count crashed = utxo_flush_count after1
   /\ db_height crashed = db_height after1
   /\ db_tx_count crashed = db_tx_count after1)
  /\ (let s' := snd (@flush W true after1) in
      flush_count s' = flush_count after1 + 1
      /\ utxo_flush_count s' = flush_count s'
      /\ db_height s' = height after1 /\ height s' = height after1
      /\ db_tx_count s' = tx_count after1 /\ tx_count s' = tx_count after1).
Proof.
  split.
  - apply (proj1 (@flush_assigns_utxo_fields_only_with_utxos W after1)).
  - apply (proj2 (@flush_assigns_utxo_fields_only_with_utxos W after1)).
    vm_compute. reflexivity.
Defined.

Example flush_in_scenario :
  (db_height after1, db_tx_count after1) = (-1, 0)
  /\ (db_height crashed, db_tx_count crashed) = (-1, 0)
  /\ (let s' := snd (@flush W true after1) in
      (flush_count s', utxo_flush_count s', db_height s', db_tx_count s')
      = (1, 1, 1, 2)).
Proof. vm_compute. repeat split. Qed.

(** ** formatted_time *)

(** X7: the four fields [formatted_time] prints stand for exactly [t]
    seconds: days, then hours below 24, minutes and seconds below 60;
    the day count is negative exactly when [t] is. *)
Theorem time_parts_recompose t :
  let '(d, h, m, s) := time_parts t in
  86400 * d + 3600 * h + 60 * m + s = t
  /\ 0 <= h < 24 /\ 0 <= m < 60 /\ 0 <= s < 60
  /\ (0 <= d <-> 0 <= t).
Proof.
  unfold time_parts.
  pose proof (Z.div_mod t 86400 ltac:(lia)) as D1.
  pose proof (Z.div_mod t 3600 ltac:(lia)) as D1'.
  assert (t mod 3600 = (t mod 86400) mod 3600) as E1.
  { replace t with (t mod 86400 + (t / 86400 * 24) * 3600) at 1 by lia.
    apply Z_mod_plus_full. }
  assert (t mod 60 = (t mod 3600) mod 60) as E2.
  { replace t with (t mod 3600 + (t / 3600 * 60) * 60) at 1 by lia.
    apply Z_mod_plus_full. }
  pose proof (Z.div_mod (t mod 86400) 3600 ltac:(lia)) as D2.
  pose proof (Z.div_mod (t mod 3600) 60 ltac:(lia)) as D3.
  pose proof (Z.mod_pos_bound t 86400 ltac:(lia)) as B1.
  pose proof (Z.mod_pos_bound t 3600 ltac:(lia)) as B2.
  pose proof (Z.mod_pos_bound t 60 ltac:(lia)) as B3.
  assert (0 <= t mod 86400 / 3600 < 24) as Bh.
  { split; [apply Z.div_pos; lia | apply Z.div_lt_upper_bound; lia]. }
  assert (0 <= t mod 3600 / 60 < 60) as Bm.
  { split; [apply Z.div_pos; lia | apply Z.div_lt_upper_bound; lia]. }
  repeat split; lia.
Qed.

Example formatted_time_examples :
  formatted_time 93784 = "1d 02h 03m 04s"%string
  /\ formatted_time 0 = "0d 00h 00m 00s"%string
  /\ formatted_time (-1) = "-1d 23h 59m 59s"%string.
Proof. vm_compute. repeat split. Qed.

(** ** Prefetcher: queue, window and rounds *)

Section PrefetcherMore.
Import Prefetcher.

Lemma sum_app xs ys : sum (xs ++ ys) = sum xs + sum ys.
Proof. induction xs as [|x xs IH]; simpl; lia. Qed.

(** What a round does once the daemon has answered each request. *)
Lemma prefetch_run d p dh first count hashes blocks :
Prefetcher.height d = Ok dh ->
request p dh = Ok (first, count) ->
block_hex_hashes d first count = Ok hashes ->
hashes <> [] ->
raw_blocks d hashes = Ok blocks ->
_prefetch d p
= (Ok tt,
   {| queue := queue p ++ [(blocks, sum (map len blocks))];
      queue_size := queue_size p + sum (map len blocks);
      target_cache_size := target_cache_size p;
      fetched_height := fetched_height p + len blocks;
      recent_sizes := keep_recent (recent_sizes p) (map len blocks) |}).
Proof.
intros Hh Hreq Hhashes Hne Hblocks.
unfold _prefetch, bind, lift, get, ret, modify.
rewrite Hh. simpl. rewrite Hreq. simpl. rewrite Hhashes.
destruct hashes as [|h hs]; [done|]. simpl. by rewrite Hblocks.
Qed.

Lemma prefetch_not_ok_state d p :
is_ok (fst (_prefetch d p)) = false -> snd (_prefetch d p) = p.
Proof.
unfold _prefetch, bind, lift, get, ret, modify.
destruct (Prefetcher.height d) as [dh|e]; simpl; [|done].
destruct (request p dh) as [[first count]|e]; simpl; [|done].
destruct (block_hex_hashes d first count) as [[|h hs]|e]; simpl;
  [done| |done].
by destruct (raw_blocks d (h :: hs)) as [blocks|e].
Qed.

(** X2: a round that raises, whatever the exception and whichever
  request it comes from, leaves the prefetcher exactly as it was:
  nothing is queued and neither [fetched_height] nor the window of
  recent sizes moves. *)
Theorem prefetch_failure_changes_nothing d p :
is_ok (fst (_prefetch d p)) = false -> snd (_prefetch d p) = p.
Proof. apply prefetch_not_ok_state. Qed.

(** X6: the loop of [start] never sees a [DaemonError]: a round in
  which [_prefetch] raises it ends normally, with the prefetcher as
  it was before the round. *)
Theorem try_prefetch_swallows_DaemonError d p :
fst (try_prefetch d p) <> Raise DaemonError
/\ (fst (_prefetch d p) = Raise DaemonError ->
    try_prefetch d p = (Ok tt, p)).
Proof.
unfold try_prefetch. split.
- destruct (_prefetch d p) as [[[]|e] p']; simpl; [done|].
  by destruct e.
- intros Hraise.
  pose proof (prefetch_not_ok_state d p) as Hp. rewrite Hraise in Hp.
  specialize (Hp eq_refl).
  destruct (_prefetch d p) as [r p']. simpl in *. by subst.
Qed.

Lemma keep_recent_suffix recent sizes :
exists dropped, recent ++ sizes = dropped ++ keep_recent recent sizes.
Proof.
unfold keep_recent. destruct (0 <? _).
- eexists. symmetry. apply firstn_skipn.
- by exists [].
Qed.

(** X3: a round in which the daemon answers puts the blocks it
  fetched at the back of the queue as one batch, counts their bytes
  into [queue_size] and their number into [fetched_height], and keeps
  their sizes at the end of the window; on a queue that was empty,
  [get_blocks] then hands over exactly that batch and [queue_size] is
  back where it was. *)
Theorem prefetch_then_get_blocks d p dh first count hashes blocks :
Prefetcher.height d = Ok dh ->
request p dh = Ok (first, count) ->
block_hex_hashes d first count = Ok hashes ->
hashes <> [] ->
raw_blocks d hashes = Ok blocks ->
let p' := snd (_prefetch d p) in
fst (_prefetch d p) = Ok tt
/\ queue p' = queue p ++ [(blocks, sum (map len blocks))]
/\ queue_size p' = queue_size p + sum (map len blocks)
/\ fetched_height p' = fetched_height p + len blocks
/\ (exists dropped,
      recent_sizes p ++ map len blocks = dropped ++ recent_sizes p')
/\ (queue p = [] ->
    exists p'',
      get_blocks p' = Some (blocks, p'')
      /\ queue p'' = [] /\ queue_size p'' = queue_size p
      /\ fetched_height p'' = fetched_height p + len blocks).
Proof.
intros Hh Hreq Hhashes Hne Hblocks.
rewrite (prefetch_run d p dh first count hashes blocks) by done.
simpl. repeat split; try done.
- apply keep_recent_suffix.
- intros Hq. unfold get_blocks. simpl. rewrite Hq. simpl.
  eexists. split; [reflexivity|]. simpl. repeat split. lia.
Qed.

Lemma prefetch_queue_ok d p : queue_ok p -> queue_ok (snd (_prefetch d p)).
Proof.
intros [Hsize Hq]. unfold _prefetch, bind, lift, get, ret, modify.
destruct (Prefetcher.height d) as [dh|e]; simpl; [|by split].
destruct (request p dh) as [[first count]|e]; simpl; [|by split].
destruct (block_hex_hashes d first count) as [[|h hs]|e]; simpl;
  [by split| |by split].
destruct (raw_blocks d (h :: hs)) as [blocks|e]; simpl; [|by split].
split; simpl.
- rewrite map_app, sum_app, Hsize. simpl. lia.
- apply Forall_app. split; [done|]. by constructor.
Qed.

(** X1: in every state of a prefetcher [queue_size] is the sum of the
  byte totals of the queued batches, and each batch's total is the
  sum of the lengths of its blocks: the byte budget of [start] is
  checked against what is really queued. *)
Theorem reachable_queue_ok p : reachable p -> queue_ok p.
Proof.
induction 1 as [h | d p _ IH | p blocks p' _ IH Hget].
- by split.
- by apply prefetch_queue_ok.
- destruct IH as [Hsize Hq]. unfold get_blocks in Hget.
  destruct (queue p) as [|[bs total] rest] eqn:E; [discriminate|].
  injection Hget as _ <-. simpl in *.
  inversion Hq as [|? ? _ Hrest]; subst. split; simpl; [lia | done].
Qed.

(** X4: the window of recent block sizes always holds at least one
  and at most 50 entries, so the average [_prefill_count] divides by
  is always defined. *)
Theorem recent_sizes_window p :
reachable p -> (1 <= length (recent_sizes p) <= 50)%nat.
Proof.
intros Hr. split; [|by apply reachable_recent_sizes_le_50].
apply reachable_inv in Hr as [Hne _].
destruct (recent_sizes p); [done | simpl; lia].
Qed.

(** X5: a round with a daemon that tells its height asks it for
    hashes once, starting right after the last block fetched; the
    count it asks for is never more than 4000 nor more than the
    daemon has beyond [fetched_height], and at least 10 when at least
    10 are missing.  From the answer to that request on the round is
    the spec's. *)
Theorem request_count_bounds p d daemon_height :
  reachable p ->
  Prefetcher.height d = Ok daemon_height ->
  exists count,
    _prefetch d p
    = spec_round d p (block_hex_hashes d (fetched_height p + 1) count)
    /\ count <= 4000
    /\ count <= daemon_height - fetched_height p
    /\ Z.min (daemon_height - fetched_height p) 10 <= count.
Proof.
  intros Hr Hh. apply reachable_inv in Hr.
  exists (spec_count p daemon_height).
  split; [by apply prefetch_round|].
  unfold spec_count. destruct (avg_recent_size p =? 0); lia.
Qed.

End PrefetcherMore.

Lemma prefetch_failure_changes_nothing_witness :
  snd (Prefetcher._prefetch Toy.down (Prefetcher.init 7)) = Prefetcher.init 7.
Proof.
  apply (prefetch_failure_changes_nothing Toy.down (Prefetcher.init 7)).
  vm_compute. reflexivity.
Defined.

Lemma try_prefetch_swallows_DaemonError_witness :
  fst (Prefetcher.try_prefetch Toy.down (Prefetcher.init 7))
  <> Raise DaemonError
  /\ Prefetcher.try_prefetch Toy.down (Prefetcher.init 7)
     = (Ok tt, Prefetcher.init 7).
Proof.
  split.
  - apply (proj1 (try_prefetch_swallows_DaemonError Toy.down
                    (Prefetcher.init 7))).
  - apply (proj2 (try_prefetch_swallows_DaemonError Toy.down
                    (Prefetcher.init 7))).
    vm_compute. reflexivity.
Defined.

Lemma prefetch_then_get_blocks_witness :
  let p := Prefetcher.init (-1) in
  let p' := snd (Prefetcher._prefetch Toy.daemon p) in
  fst (Prefetcher._prefetch Toy.daemon p) = Ok tt
  /\ Prefetcher.queue p'
     = Prefetcher.queue p
       ++ [([repeat x00 68], sum (map len [repeat x00 68]))]
  /\ Prefetcher.queue_size p'
     = Prefetcher.queue_size p + sum (map len [repeat x00 68])
  /\ Prefetcher.fetched_height p'
     = Prefetcher.fetched_height p + len [repeat x00 68]
  /\ (exists dropped,
        Prefetcher.recent_sizes p ++ map len [repeat x00 68]
        = dropped ++ Prefetcher.recent_sizes p')
  /\ (Prefetcher.queue p = [] ->
      exists p'',
        Prefetcher.get_blocks p' = Some ([repeat x00 68], p'')
        /\ Prefetcher.queue p'' = []
        /\ Prefetcher.queue_size p'' = Prefetcher.queue_size p
        /\ Prefetcher.fetched_height p''
           = Prefetcher.fetched_height p + len [repeat x00 68]).
Proof.
  apply (prefetch_then_get_blocks Toy.daemon (Prefetcher.init (-1))
           100 0 10 [[x01]] [repeat x00 68]).
  - reflexivity.
  - vm_compute. reflexivity.
  - reflexivity.
  - discriminate.
  - reflexivity.
Defined.

Lemma reachable_queue_ok_witness :
  Prefetcher.queue_ok
    (snd (Prefetcher._prefetch Toy.daemon (Prefetcher.init (-1)))).
Proof.
  apply reachable_queue_ok.
  apply Prefetcher.reach_prefetch, Prefetcher.reach_init.
Defined.

Lemma recent_sizes_window_witness :
  (1 <= length (Prefetcher.recent_sizes
                  (snd (Prefetcher._prefetch Toy.daemon
                          (Prefetcher.init (-1))))) <= 50)%nat.
Proof.
  apply recent_sizes_window.
  apply Prefetcher.reach_prefetch, Prefetcher.reach_init.
Defined.

Lemma request_count_bounds_witness :
  let p := Prefetcher.init (-1) in
  exists count,
    Prefetcher._prefetch (Toy.chain 5) p
    = Prefetcher.spec_round (Toy.chain 5) p
        (Prefetcher.block_hex_hashes (Toy.chain 5)
           (Prefetcher.fetched_height p + 1) count)
    /\ count <= 4000
    /\ count <= 5 - Prefetcher.fetched_height p
    /\ Z.min (5 - Prefetcher.fetched_height p) 10 <= count.
Proof.
  apply (request_count_bounds (Prefetcher.init (-1)) (Toy.chain 5) 5).
  - apply Prefetcher.reach_init.
  - reflexivity.
Defined.

(** ** The further theorems on the test run *)

Lemma init_without_state_record_witness :
  fst (@init W (Some headless_db) [] [] []) = Raise AttributeError
  /\ db (snd (@init W (Some headless_db) [] [] [])) = headless_db.
Proof.
  apply (@init_without_state_record W headless_db [] [] []).
  reflexivity.
Defined.

Lemma recovery_idempotent_witness :
  @delete_excess_history W (snd (@delete_excess_history W restarted))
  = (Ok tt, snd (@delete_excess_history W restarted)).
Proof.
  apply (@recovery_idempotent W restarted).
  vm_compute. reflexivity.
Defined.


Lemma restart_adopts_flushed_state_witness :
  let s' := snd (@flush W false after1) in
  exists s1,
    @read_state W (set_db (db s') fresh) = (Ok tt, s1)
    /\ db s1 = db s'
    /\ db_height s1 = db_height s' /\ db_tx_count s1 = db_tx_count s'
    /\ tip s1 = tip s'
    /\ flush_count s1 = flush_count s'
    /\ utxo_flush_count s1 = utxo_flush_count s'
    /\ wall_time s1 = wall_time s'
    /\ (utxo_flush_count s' = flush_count s' ->
        @open_db W (Some (db s')) fresh = (Ok tt, s1)).
Proof.
  apply (@restart_adopts_flushed_state W false after1 fresh).
  - vm_compute. reflexivity.
  - vm_compute. reflexivity.
Defined.

Lemma history_flush_stores_arrays_witness :
  let s' := snd (@flush W false after1) in
  KV.get (history_key [x41] (flush_count after1 + 1)) (db s')
  = Some (array_tobytes [0; 1])
  /\ KV.get (lit "state") (db s') = Some (py_repr (state_dict s'))
  /\ history s' = ∅ /\ history_size s' = 0
  /\ flush_count s' = flush_count after1 + 1.
Proof.
  apply (@history_flush_stores_arrays W after1 [x41] [0; 1]).
  - assert (flush_count after1 = 0) as -> by (vm_compute; reflexivity). lia.
  - vm_compute. reflexivity.
Defined.

Lemma flush_count_overflow_witness :
  let r := @flush W true worn in
  fst r = Raise StructError
  /\ db (snd r) = db worn
  /\ utxo_flush_count (snd r) = utxo_flush_count worn
  /\ history (snd r) = delete None (history worn)
  /\ history_size (snd r) = history_size worn
  /\ flush_count (snd r) = flush_count worn + 1.
Proof.
  apply (@flush_count_overflow W true worn).
  assert (flush_count worn = 65535) as -> by reflexivity. lia.
Defined.

Lemma history_arrays_read_back_witness :
  array_ok [0; 1] /\ array_frombytes (array_tobytes [0; 1]) = Ok [0; 1].
Proof.
  apply (@history_arrays_read_back W after1 (Some [x41]) [0; 1]).
  - apply reach_process_block, reach_process_block.
    apply (@reach_init W None [] [] []). vm_compute. reflexivity.
  - vm_compute. reflexivity.
Defined.

Lemma db_counts_never_ahead_witness :
  db_height after1 <= height after1 /\ db_tx_count after1 <= tx_count after1.
Proof.
  apply (@db_counts_never_ahead W after1).
  apply reach_process_block, reach_process_block.
  apply (@reach_init W None [] [] []). vm_compute. reflexivity.
Defined.

Lemma process_block_between_cache_checks_witness :
  let s' := snd (@process_block W block0 patient) in
  db s' = db patient
  /\ flush_count s' = flush_count patient
  /\ utxo_flush_count s' = utxo_flush_count patient
  /\ db_height s' = db_height patient
  /\ db_tx_count s' = db_tx_count patient
  /\ next_cache_check s' = next_cache_check patient
  /\ (ticks s' <= S (ticks patient))%nat.
Proof.
  apply (@process_block_between_cache_checks W block0 patient).
  apply Z.leb_le. vm_compute. reflexivity.
Defined.

Lemma process_block_extends_tip_witness :
  exists header tx_hashes txs header_hash,
    @read_block W block0 = Ok (header, tx_hashes, txs)
    /\ @header_hashes W header = Ok (tip fresh, header_hash)
    /\ tip (snd (@process_block W block0 fresh)) = header_hash
    /\ height (snd (@process_block W block0 fresh)) = height fresh + 1.
Proof.
  apply (@process_block_extends_tip W block0 fresh).
  vm_compute. reflexivity.
Defined.

Lemma start_stops_when_caught_up_witness :
  let s1 := snd (@process_blocks W [block0] nearly_level) in
  @start W [[block0]; [block1]] nearly_level
  = (match fst (@flush W true s1) with
     | Ok _ => Raise (NameError "self_height")
     | Raise e => Raise e
     end, snd (@flush W true s1)).
Proof.
  apply (@start_stops_when_caught_up W [block0] [[block1]] nearly_level).
  - vm_compute. reflexivity.
  - vm_compute. reflexivity.
Defined.

Lemma start_goes_on_only_behind_witness :
  @start W [[block0]; [block1]] fresh
  = @process_blocks W (concat [[block0]; [block1]]) fresh
  /\ forall done_ rest,
       [[block0]; [block1]] = done_ ++ rest -> done_ <> [] ->
       let s1 := snd (@process_blocks W (concat done_) fresh) in
       Some (height s1) <> @cached_height W (ticks s1).
Proof.
  apply (@start_goes_on_only_behind W [[block0]; [block1]] fresh).
  vm_compute. reflexivity.
Defined.

Lemma get_history_at_most_limit_witness :
  len (fst (@get_history W crashed [x41] (PyInt 1))) <= 1.
Proof. apply (@get_history_at_most_limit W crashed [x41] 1). lia. Defined.

Lemma process_tx_failure_leaves_history_witness :
  exists c, snd (@process_tx W [x0b] tx1 fresh) = set_utxo_cache c fresh.
Proof.
  apply (@process_tx_failure_leaves_history W [x0b] tx1 fresh
           (OtherError "CorruptIndex")).
  - assert (tx_count fresh = 0) as -> by reflexivity.
    unfold array_I_max. lia.
  - vm_compute. reflexivity.
Defined.

Lemma get_history_limit_witness :
  (forall n, 0 <= n ->
     @get_history W crashed [x41] (PyInt n)
     = (firstn (Z.to_nat n) [([x0a], 0); ([x0b], 1)], Ok tt))
  /\ @get_history W crashed [x41] PyNone
     = ([([x0a], 0); ([x0b], 1)], Ok tt).
Proof.
  assert (KV.iterator (lit "H" ++ [x41]) (db crashed)
          = [(lit "HA" ++ [x00; x01], le_encode 4 0 ++ le_encode 4 1)])
    as Hit by (vm_compute; reflexivity).
  apply (@get_history_limit W crashed [x41] [([x0a], 0); ([x0b], 1)]).
  - rewrite Hit. repeat constructor.
  - rewrite Hit. repeat constructor; vm_compute; reflexivity.
Defined.
